(** * XBIZocr: the OCR upload service (app.py) and the batch script (main.py)

    A shallow embedding of the two scripts and the properties of the
    result-flattening helper, the upload and download routes, the
    per-image OCR writer and the batch loop.

    Conventions.
    - A Python [str] is a list of Unicode code points ([pystr]).
    - The value returned by the OCR engine is a finitely nested tree
      ([pyval]); a [dict] keeps its insertion order and has string keys,
      as the JSON-like records of the engine have.
    - The file system is a finite map from paths to what is there: a
      regular file with its content, or a directory.  Opening a file for
      writing, making a directory and encoding a text as UTF-8 can fail,
      as they do in the scripts.
    - Calls into third-party code (the OCR engines, werkzeug's
      [secure_filename], [json.dumps]) and what the operating system
      decides beyond the file map are parameters of the model; a call that
      may raise returns an [outcome]. *)

From Stdlib Require Import ZArith NArith List Ascii String Bool Lia PrimFloat.
From stdpp Require Import base option list gmap.
Import ListNotations.

(** ** Python strings *)

Definition pystr := list N.

(** An ASCII literal as a Python string. *)
Definition lit (s : string) : pystr :=
  map N_of_ascii (list_ascii_of_string s).

(** [str.isspace] on one code point: the code points Python's Unicode
    database classifies as whitespace. *)
Definition py_isspace (c : N) : bool :=
  (((0x09 <=? c) && (c <=? 0x0D)) ||
   ((0x1C <=? c) && (c <=? 0x20)) ||
   (c =? 0x85) || (c =? 0xA0) || (c =? 0x1680) ||
   ((0x2000 <=? c) && (c <=? 0x200A)) ||
   (c =? 0x2028) || (c =? 0x2029) || (c =? 0x202F) ||
   (c =? 0x205F) || (c =? 0x3000))%N.

Fixpoint lstrip (s : pystr) : pystr :=
  match s with
  | c :: s' => if py_isspace c then lstrip s' else s
  | [] => []
  end.

Definition rstrip (s : pystr) : pystr := rev (lstrip (rev s)).

(** [s.strip()] *)
Definition strip (s : pystr) : pystr := rstrip (lstrip s).

(** Truthiness of a string: [if s:] holds for a non-empty string. *)
Definition truthy (s : pystr) : bool :=
  match s with [] => false | _ :: _ => true end.

(** A string that does not begin with whitespace. *)
Definition clean_head (s : pystr) : Prop :=
  match s with
  | [] => True
  | c :: _ => py_isspace c = false
  end.

(** ["\n".join(lines)] and friends. *)
Fixpoint join (sep : pystr) (parts : list pystr) : pystr :=
  match parts with
  | [] => []
  | [p] => p
  | p :: rest => p ++ sep ++ join sep rest
  end.

(** ** Python values *)

Unset Elimination Schemes.
Inductive pyval : Type :=
| PStr (s : pystr)
| PInt (z : Z)
| PBool (b : bool)
| PFloat (f : float)
| PNone
| PList (items : list pyval)
| PTuple (items : list pyval)
| PDict (kvs : list (pystr * pyval))
| POther (repr : pystr).
Set Elimination Schemes.

(** [isinstance(obj, (int, float))]; [bool] is a subclass of [int]. *)
Definition is_number (obj : pyval) : bool :=
  match obj with PInt _ | PBool _ | PFloat _ => true | _ => false end.

(** ** extract_texts_from_predict *)

(** [if s.strip(): texts.append(s.strip())] *)
Definition append_text (s : pystr) (texts : list pystr) : list pystr :=
  if truthy (strip s) then texts ++ [strip s] else texts.

(** The test of the first pattern, [(text, confidence)]:
    [len(obj) == 2 and isinstance(obj[0], str)
     and isinstance(obj[1], (int, float))]; gives the text. *)
Definition text_conf (items : list pyval) : option pystr :=
  match items with
  | [PStr s; c] => if is_number c then Some s else None
  | _ => None
  end.

(** [for item in items: rec(item)] *)
Definition walk (rec : pyval -> list pystr -> list pystr)
    (items : list pyval) (texts : list pystr) : list pystr :=
  fold_left (fun acc item => rec item acc) items texts.

(** The inner function [rec]; the list [texts] it appends to is threaded
    through as an accumulator. *)
Fixpoint rec (obj : pyval) (texts : list pystr) {struct obj} : list pystr :=
  let seq (items : list pyval) :=
    match text_conf items with
    | Some s => append_text s texts
    | None =>
        match items with
        | _ :: (PList sec | PTuple sec) :: _ =>
            (* len(obj) >= 2 and sec = obj[1] is a list or a tuple *)
            match sec with
            | PStr s1 :: _ => append_text s1 texts
            | _ => walk rec sec texts
            end
        | _ => walk rec items texts
        end
    end in
  match obj with
  | PStr s => append_text s texts
  | PInt _ | PBool _ | PFloat _ => texts
  | PList items => seq items
  | PTuple items => seq items
  | PDict kvs => fold_left (fun acc kv => rec (snd kv) acc) kvs texts
  | PNone | POther _ => texts
  end.

(** [rec(result); return [t for t in texts if t]] *)
Definition extract_texts_from_predict (result : pyval) : list pystr :=
  List.filter truthy (rec result []).

(** *** The call structure of [rec] *)

(** The items of a list or tuple and the values of a dict: the immediate
    sub-elements of a value. *)
Definition children (obj : pyval) : list pyval :=
  match obj with
  | PList items | PTuple items => items
  | PDict kvs => map snd kvs
  | _ => []
  end.

(** Nesting depth of a value. *)
Fixpoint depth (obj : pyval) : nat :=
  match obj with
  | PList items | PTuple items => S (fold_right (fun c d => max (depth c) d) 0%nat items)
  | PDict kvs => S (fold_right (fun kv d => max (depth (snd kv)) d) 0%nat kvs)
  | _ => 0%nat
  end.

(** [c] is a strict sub-element of [obj]: reached by one or more steps to
    an immediate sub-element. *)
Inductive subelem (c : pyval) : pyval -> Prop :=
| subelem_child obj : In c (children obj) -> subelem c obj
| subelem_step mid obj : subelem c mid -> In mid (children obj) -> subelem c obj.

(** The strings one activation of [rec] appends itself, before any
    recursive call. *)
Definition rec_appends (obj : pyval) : list pystr :=
  let seq (items : list pyval) :=
    match text_conf items with
    | Some s => append_text s []
    | None =>
        match items with
        | _ :: (PList sec | PTuple sec) :: _ =>
            match sec with
            | PStr s1 :: _ => append_text s1 []
            | _ => []
            end
        | _ => []
        end
    end in
  match obj with
  | PStr s => append_text s []
  | PList items | PTuple items => seq items
  | _ => []
  end.

(** The arguments of the recursive calls one activation of [rec] makes,
    in the order it makes them. *)
Definition rec_calls (obj : pyval) : list pyval :=
  let seq (items : list pyval) :=
    match text_conf items with
    | Some s => []
    | None =>
        match items with
        | _ :: (PList sec | PTuple sec) :: _ =>
            match sec with
            | PStr s1 :: _ => []
            | _ => sec
            end
        | _ => items
        end
    end in
  match obj with
  | PList items | PTuple items => seq items
  | PDict kvs => map snd kvs
  | _ => []
  end.

(** [rec] run as a general recursive function, with a bound on the depth of
    the call stack: [None] when the bound is reached. *)
Fixpoint rec_fuel (fuel : nat) (obj : pyval) (texts : list pystr)
    : option (list pystr) :=
  match fuel with
  | O => None
  | S fuel' =>
      fold_left
        (fun acc c => match acc with
                      | Some t => rec_fuel fuel' c t
                      | None => None
                      end)
        (rec_calls obj) (Some (texts ++ rec_appends obj))
  end.

(** [rec c] is called directly by the activation [rec obj]. *)
Definition rec_call (c obj : pyval) : Prop := In c (rec_calls obj).

(** *** The depth-first walk the flattening is compared with *)

(** Every string leaf of a value, trimmed, the empty ones dropped, in the
    order of the depth-first, left-to-right walk over list and tuple items
    and dict values. *)
Fixpoint dfs_texts (obj : pyval) : list pystr :=
  match obj with
  | PStr s => append_text s []
  | PList items | PTuple items => flat_map dfs_texts items
  | PDict kvs => flat_map (fun kv => dfs_texts (snd kv)) kvs
  | _ => []
  end.

(** A non-empty string equal to its own trimmed form. *)
Definition well_trimmed (t : pystr) : Prop := t <> [] /\ strip t = t.

(** ** Paths (pathlib, POSIX flavour) *)

Definition SLASH : N := 47%N.
Definition DOT : N := 46%N.

Definition pystr_eqb (a b : pystr) : bool := bool_decide (a = b).

(** [s.split(sep)] for a one-character separator. *)
Fixpoint split_on (sep : N) (s : pystr) : list pystr :=
  match s with
  | [] => [[]]
  | c :: s' =>
      if (c =? sep)%N then [] :: split_on sep s'
      else match split_on sep s' with
           | p :: ps => (c :: p) :: ps
           | [] => [[c]]
           end
  end.

(** A path is the list of its components. *)
Definition path := list pystr.

(** The components [Path(s)] keeps: neither empty nor ["."]. *)
Definition components (s : pystr) : path :=
  List.filter (fun p => negb (pystr_eqb p [] || pystr_eqb p [DOT]))
              (split_on SLASH s).

(** [base / s]: an absolute [s] replaces [base]. *)
Definition path_div (base : path) (s : pystr) : path :=
  match s with
  | c :: _ => if (c =? SLASH)%N then components s else base ++ components s
  | [] => base
  end.

(** [str(p)] for an absolute path. *)
Definition path_str (p : path) : pystr :=
  flat_map (fun c => SLASH :: c) p.

(** [p.name] *)
Definition path_name (p : path) : pystr := List.last p [].

(** [name.rfind(".")] *)
Fixpoint rfind (c : N) (s : pystr) : option nat :=
  match s with
  | [] => None
  | x :: s' =>
      match rfind c s' with
      | Some i => Some (S i)
      | None => if (x =? c)%N then Some 0%nat else None
      end
  end.

(** [p.suffix]: the part of the name from its last dot on, when that dot
    is neither the first nor the last character of the name. *)
Definition path_suffix (p : path) : pystr :=
  let name := path_name p in
  match rfind DOT name with
  | Some i =>
      if (0 <? i)%nat && (i <? length name - 1)%nat then drop i name else []
  | None => []
  end.

(** [p.with_suffix(sfx)]: the name loses its old suffix and gets [sfx].
    pathlib raises [ValueError] on a path whose name is empty; that case is
    raised where the function is called, in [default_out_path]. *)
Definition with_suffix (p : path) (sfx : pystr) : path :=
  let name := path_name p in
  let stem := take (length name - length (path_suffix p)) name in
  removelast p ++ [stem ++ sfx].

(** [s.lower()]: the ASCII capitals are mapped to their small letters.
    Other code points are left as they are; none of them lowers to a string
    of the letters the extensions below are made of. *)
Definition lower (s : pystr) : pystr :=
  map (fun c => if ((65 <=? c) && (c <=? 90))%N then (c + 32)%N else c) s.

(** [s.endswith(sfx)] *)
Definition endswith (s sfx : pystr) : bool :=
  pystr_eqb (drop (length s - length sfx) s) sfx.

(** ** app.py: configuration and helpers *)

Definition MAX_CONTENT_LENGTH : N := (16 * 1024 * 1024)%N.

Definition ALLOWED_EXTENSIONS : gset pystr :=
  {[ lit ".png"; lit ".jpg"; lit ".jpeg"; lit ".tiff"; lit ".bmp"; lit ".gif" ]}.

Definition allowed_filename (filename : pystr) : bool :=
  bool_decide (lower (path_suffix (components filename)) ∈ ALLOWED_EXTENSIONS).


(** ** Exceptions, files and the operating system *)

(** A raised exception: its class and [str(e)]. *)
Record exn := Exn { exn_class : string; exn_str : pystr }.

Inductive outcome (A : Type) : Type :=
| Returns (a : A)
| Raises (e : exn).
Arguments Returns {A} a.
Arguments Raises {A} e.

(** What is at a path: a file holding the bytes of an upload, a file
    holding text written as UTF-8, or a directory. *)
Inductive content :=
| Bytes (data : list N)
| Text (s : pystr)
| Dir.

(** The files and directories, by path. *)
Abbreviation filesystem := (gmap path content).

(** What is at a path; the path without component is the root directory
    (the working directory, for the relative paths of the batch script). *)
Definition path_kind (fs : filesystem) (p : path) : option content :=
  match p with
  | [] => Some Dir
  | _ :: _ => fs !! p
  end.

(** [p.parent] *)
Definition parent (p : path) : path := removelast p.

(** A regular file sits at a proper ancestor of the path. *)
Definition ancestor_file (fs : filesystem) (p : path) : bool :=
  existsb
    (fun k => match fs !! take k p with
              | Some (Bytes _ | Text _) => true
              | _ => false
              end)
    (seq 1 (length p - 1)).

(** What the file map does not show of the operating system. *)
Record os_model := OsModel {
  (** the refusal to create or open a path for writing where the file map
      would allow it: permissions, quota, a read-only medium *)
  os_denies : filesystem -> path -> option exn;
  (** the refusal to open a regular file for reading *)
  os_denies_read : filesystem -> path -> option exn;
  (** [str(e)] of an [OSError] of a class on a path *)
  os_message : string -> pystr -> pystr;
  (** [str(e)] of the [UnicodeEncodeError] for a text *)
  encode_message : pystr -> pystr
}.

Definition os_error (os : os_model) (class : string) (p : path) : exn :=
  Exn class (os_message os class (path_str p)).

(** [open(p, "w")] and [open(p, "wb")]: the exception raised, if any.  The
    path must not be a directory, no ancestor may be a regular file and the
    parent must be a directory. *)
Definition open_error (os : os_model) (fs : filesystem) (p : path)
    : option exn :=
  match path_kind fs p with
  | Some Dir => Some (os_error os "IsADirectoryError" p)
  | _ =>
      if ancestor_file fs p then Some (os_error os "NotADirectoryError" p)
      else
        match path_kind fs (parent p) with
        | Some Dir => os_denies os fs p
        | _ => Some (os_error os "FileNotFoundError" p)
        end
  end.

(** A code point UTF-8 cannot encode: a surrogate. *)
Definition is_surrogate (c : N) : bool := ((0xD800 <=? c) && (c <=? 0xDFFF))%N.

(** [s.encode("utf-8")] does not raise. *)
Definition utf8_encodable (s : pystr) : bool :=
  forallb (fun c => negb (is_surrogate c)) s.

Definition encode_error (os : os_model) (s : pystr) : exn :=
  Exn "UnicodeEncodeError" (encode_message os s).

(** [p.write_text(data, encoding="utf-8")]: the file is opened, which
    empties it, and the text is encoded and written; a text that cannot be
    encoded leaves the file empty. *)
Definition write_text (os : os_model) (fs : filesystem) (p : path)
    (data : pystr) : filesystem * outcome unit :=
  match open_error os fs p with
  | Some e => (fs, Raises e)
  | None =>
      if utf8_encodable data then (<[p := Text data]> fs, Returns tt)
      else (<[p := Text []]> fs, Raises (encode_error os data))
  end.

(** [file.save(dst)] of an uploaded file: [dst] is opened for writing and
    the bytes are copied. *)
Definition file_save (os : os_model) (fs : filesystem) (dst : path)
    (data : list N) : filesystem * outcome unit :=
  match open_error os fs dst with
  | Some e => (fs, Raises e)
  | None => (<[dst := Bytes data]> fs, Returns tt)
  end.

(** [os.mkdir(d)] where nothing is at [d] and its parent is a directory. *)
Definition make_dir (os : os_model) (fs : filesystem) (d : path)
    : filesystem * outcome unit :=
  match os_denies os fs d with
  | Some e => (fs, Raises e)
  | None => (<[d := Dir]> fs, Returns tt)
  end.

(** [d.mkdir(parents=True, exist_ok=True)], on the reversed path: an
    existing directory is left alone, a regular file at the path or above
    it is an error, and missing parents are made first. *)
Fixpoint mkdir_rev (os : os_model) (rd : list pystr) (fs : filesystem)
    : filesystem * outcome unit :=
  let d := rev rd in
  match rd with
  | [] => (fs, Returns tt)
  | _ :: rparent =>
      match fs !! d with
      | Some Dir => (fs, Returns tt)
      | Some _ => (fs, Raises (os_error os "FileExistsError" d))
      | None =>
          if ancestor_file fs d
          then (fs, Raises (os_error os "NotADirectoryError" d))
          else
            match path_kind fs (rev rparent) with
            | Some Dir => make_dir os fs d
            | _ =>
                match mkdir_rev os rparent fs with
                | (fs1, Returns _) => make_dir os fs1 d
                | (fs1, Raises e) => (fs1, Raises e)
                end
            end
      end
  end.

Definition mkdir_p (os : os_model) (fs : filesystem) (d : path)
    : filesystem * outcome unit :=
  mkdir_rev os (rev d) fs.

(** The code outside the repository that app.py calls, and the state of
    the interpreter it runs in. *)
Record services := Services {
  (** [Path(__file__).parent.resolve()] *)
  BASE_DIR : path;
  (** werkzeug's [secure_filename] *)
  secure_filename : pystr -> pystr;
  (** [ocr.predict(path)] on the files present *)
  predict : filesystem -> pystr -> outcome pyval;
  (** [json.dumps(result, default=str, ensure_ascii=False, indent=2)] *)
  json_dumps : pyval -> outcome pystr;
  (** the text of [f"{ALLOWED_EXTENSIONS}"] *)
  allowed_repr : pystr;
  (** how many nested calls of [rec] the interpreter's recursion limit
      still allows when [extract_texts_from_predict] is entered *)
  frames_left : nat;
  (** [str(e)] of the [RecursionError] *)
  recursion_message : pystr;
  system : os_model
}.

(** ** app.py: ocr_image_to_txt *)

Definition NEWLINE : pystr := [10%N].

Definition DEBUG_HEADER : pystr :=
  lit "# No text extracted by parser. Raw predict() output below (JSON-ish):"
  ++ NEWLINE ++ NEWLINE.

(** [extract_texts_from_predict(result)] as the interpreter runs it: with
    its recursion limit. *)
Definition run_extract (w : services) (result : pyval)
    : outcome (list pystr) :=
  match rec_fuel (frames_left w) result [] with
  | Some texts => Returns (List.filter truthy texts)
  | None => Raises (Exn "RecursionError" (recursion_message w))
  end.

(** [out_path], or [image_path.with_suffix(".txt")] when it is [None];
    [with_suffix] raises on a path with an empty name. *)
Definition default_out_path (image_path : path) (out_path : option path)
    : outcome path :=
  match out_path with
  | Some p => Returns p
  | None =>
      if pystr_eqb (path_name image_path) []
      then Raises (Exn "ValueError"
                       (lit "PosixPath('" ++ path_str image_path
                        ++ lit "') has an empty name"))
      else Returns (with_suffix image_path (lit ".txt"))
  end.

(** The text to write: the debug dump when nothing was extracted, the
    lines joined by newlines otherwise. *)
Definition text_to_write (w : services) (result : pyval)
    (texts : list pystr) : outcome pystr :=
  match texts with
  | [] =>
      match json_dumps w result with
      | Returns dump => Returns (DEBUG_HEADER ++ dump)
      | Raises e => Raises e
      end
  | _ :: _ => Returns (join NEWLINE texts)
  end.

(** [ocr_image_to_txt(ocr, image_path, out_path)]: the file system after the
    call, and what the call returns or raises. *)
Definition ocr_image_to_txt (w : services) (fs : filesystem)
    (image_path : path) (out_path : option path)
    : filesystem * outcome (path * list pystr) :=
  match path_kind fs image_path with
  | None =>
      (fs, Raises (Exn "FileNotFoundError"
                       (lit "Image not found: " ++ path_str image_path)))
  | Some _ =>
      match predict w fs (path_str image_path) with
      | Raises e => (fs, Raises e)
      | Returns result =>
          match run_extract w result with
          | Raises e => (fs, Raises e)
          | Returns texts =>
              match default_out_path image_path out_path with
              | Raises e => (fs, Raises e)
              | Returns out_path =>
                  match mkdir_p (system w) fs (parent out_path) with
                  | (fs1, Raises e) => (fs1, Raises e)
                  | (fs1, Returns _) =>
                      match text_to_write w result texts with
                      | Raises e => (fs1, Raises e)
                      | Returns data =>
                          match write_text (system w) fs1 out_path data with
                          | (fs2, Raises e) => (fs2, Raises e)
                          | (fs2, Returns _) =>
                              (fs2, Returns (out_path, texts))
                          end
                      end
                  end
              end
          end
      end
  end.

(** ** app.py: the routes *)

(** An uploaded file of the request: [file.filename] and its bytes. *)
Record FileStorage := { filename : pystr; stream : list N }.

(** JSON values of the response bodies; [jobj] is the dict handed to
    [jsonify], its keys in the order they were set. *)
Inductive jval :=
| JStr (s : pystr)
| JInt (n : Z).

Definition jobj := list (string * jval).

(** [key in d] and [d[key]] on an object. *)
Fixpoint jget (key : string) (d : jobj) : option jval :=
  match d with
  | [] => None
  | (k, v) :: d' => if String.eqb k key then Some v else jget key d'
  end.

Inductive body :=
| Json (d : jobj)                 (* [jsonify(d)] *)
| Attachment (name : pystr) (c : content)   (* [send_from_directory] *)
| ErrorPage (code : nat).         (* the framework's own HTML error page *)

Record response := Response { payload : body; status : nat }.

(** What a view function does: return a response, leave by [abort(code)]
    or by an HTTP exception of the framework, or leave by an exception
    nothing catches. *)
Inductive view_result :=
| Return (r : response)
| Abort (code : nat)
| Crash (e : exn).

(** The requests the three routes receive, without conditional or range
    headers.  An upload has the length of its body and [request.files],
    the list of its multipart file fields in the order sent. *)
Inductive request :=
| GET_health
| POST_upload (content_length : N) (files : list (pystr * FileStorage))
| GET_download (filename : pystr).

(** ["file" in request.files] and [request.files["file"]]: the first field
    of that name. *)
Fixpoint files_get (key : pystr) (files : list (pystr * FileStorage))
    : option FileStorage :=
  match files with
  | [] => None
  | (k, f) :: rest => if pystr_eqb k key then Some f else files_get key rest
  end.

Definition IMAGES_DIR (w : services) : path := BASE_DIR w ++ [lit "output"].

(** The path an upload is saved at: [IMAGES_DIR / secure_filename(...)]. *)
Definition saved_path_of (w : services) (file : FileStorage) : path :=
  path_div (IMAGES_DIR w) (secure_filename w (filename file)).

Definition health : view_result :=
  Return (Response (Json [("status"%string, JStr (lit "ok"))]) 200).

(** U+2014, the dash of the warning text. *)
Definition EM_DASH : N := 8212%N.

Definition WARNING : pystr :=
  lit "No text extracted " ++ [EM_DASH] ++ lit " debug dump saved in txt file.".

(** [upload_file()].  Reading [request.files] is what makes the framework
    check the body against [MAX_CONTENT_LENGTH]; [file.save] is outside the
    [try], so what it raises is caught by nothing. *)
Definition upload_file (w : services) (fs : filesystem)
    (content_length : N) (files : list (pystr * FileStorage))
    : filesystem * view_result :=
  if (MAX_CONTENT_LENGTH <? content_length)%N then (fs, Abort 413)
  else
  match files_get (lit "file") files with
  | None =>
      (fs, Return (Response
             (Json [("error"%string, JStr (lit "no file part in request"))]) 400))
  | Some file =>
      if pystr_eqb (filename file) [] then
        (fs, Return (Response
               (Json [("error"%string, JStr (lit "no selected file"))]) 400))
      else
        let filename := secure_filename w (filename file) in
        if negb (allowed_filename filename) then
          (fs, Return (Response
                 (Json [("error"%string,
                         JStr (lit "file extension not allowed. Allowed: "
                               ++ allowed_repr w))]) 400))
        else
          let saved_path := path_div (IMAGES_DIR w) filename in
          match file_save (system w) fs saved_path (stream file) with
          | (fs1, Raises e) => (fs1, Crash e)
          | (fs1, Returns _) =>
              match ocr_image_to_txt w fs1 saved_path None with
              | (fs2, Raises e) =>
                  (fs2, Return (Response
                          (Json [("error"%string, JStr (lit "ocr_failed"));
                                 ("detail"%string, JStr (exn_str e))]) 500))
              | (fs2, Returns (out_txt_path, texts)) =>
                  let resp :=
                    [("image"%string, JStr (path_str saved_path));
                     ("txt_file"%string, JStr (path_str out_txt_path));
                     ("text_lines_count"%string,
                      JInt (Z.of_nat (length texts)));
                     ("text_preview"%string,
                      JStr (join NEWLINE (take 20 texts)))] in
                  let resp :=
                    match texts with
                    | [] => resp ++ [("warning"%string, JStr WARNING)]
                    | _ :: _ => resp
                    end in
                  (fs2, Return (Response (Json resp) 201))
              end
          end
  end.

(** [download(filename)].  [send_from_directory] serves a regular file
    below the directory, which it opens for reading, and answers not-found
    for anything else, the directory itself included. *)
Definition download (w : services) (fs : filesystem) (filename : pystr)
    : view_result :=
  let safe := secure_filename w filename in
  let file_path := path_div (IMAGES_DIR w) safe in
  match path_kind fs file_path with
  | None => Abort 404
  | Some c =>
      match components safe, c with
      | [], _ | _, Dir => Abort 404
      | _, _ =>
          match os_denies_read (system w) fs file_path with
          | Some e => Crash e
          | None => Return (Response (Attachment safe c) 200)
          end
      end
  end.

(** The request boundary.  The application registers no error handler, so
    an aborted view is answered with the framework's own error page for the
    code, and a view left by an uncaught exception with its page for 500. *)
Definition finalize (r : view_result) : response :=
  match r with
  | Return resp => resp
  | Abort code => Response (ErrorPage code) code
  | Crash _ => Response (ErrorPage 500) 500
  end.

Definition handle (w : services) (fs : filesystem) (req : request)
    : filesystem * response :=
  match req with
  | GET_health => (fs, finalize health)
  | POST_upload content_length files =>
      let '(fs', r) := upload_file w fs content_length files in
      (fs', finalize r)
  | GET_download filename => (fs, finalize (download w fs filename))
  end.

(** A body is a JSON object with an ["error"] key. *)
Definition json_error_body (b : body) : Prop :=
  match b with
  | Json d => is_Some (jget "error" d)
  | _ => False
  end.

(** The [warning] entry of a JSON body, if it has one. *)
Definition json_warning (b : body) : option jval :=
  match b with
  | Json d => jget "warning" d
  | _ => None
  end.

(** ** main.py: the batch script *)

Definition folder_path : pystr := lit "content/".

Definition output_file : path := [lit "ocr_output.txt"].

(** The folder, the two libraries the script calls and the terminal:
    [image] is what [Image.open] gives back. *)
Record batch_env (image : Type) := BatchEnv {
  (** [os.listdir(folder_path)] *)
  listdir : outcome (list pystr);
  (** [Image.open(img_path)] *)
  Image_open : pystr -> outcome image;
  (** [pytesseract.image_to_string(img)] *)
  image_to_string : image -> outcome pystr;
  (** what the closing [print] raises, if the terminal cannot show its
      text *)
  print_error : option exn;
  batch_system : os_model
}.
Arguments listdir {image} _.
Arguments Image_open {image} _ _.
Arguments image_to_string {image} _ _.
Arguments print_error {image} _.
Arguments batch_system {image} _.

(** [os.path.join(a, b)] *)
Definition os_path_join (a b : pystr) : pystr :=
  match b with
  | c :: _ =>
      if (c =? SLASH)%N then b
      else if pystr_eqb a [] || endswith a [SLASH] then a ++ b
      else a ++ [SLASH] ++ b
  | [] => if pystr_eqb a [] || endswith a [SLASH] then a else a ++ [SLASH]
  end.

(** [img_file.lower().endswith((".png", ".jpg", ".jpeg"))] *)
Definition is_image_name (img_file : pystr) : bool :=
  let l := lower img_file in
  endswith l (lit ".png") || endswith l (lit ".jpg") || endswith l (lit ".jpeg").

(** What the first [f.write] of an iteration writes. *)
Definition header_line (img_file : pystr) : pystr :=
  lit "--- Text from " ++ img_file ++ lit " ---" ++ NEWLINE.

(** What the second [f.write] of an iteration writes. *)
Definition text_lines (text : pystr) : pystr := text ++ NEWLINE ++ NEWLINE.

(** What the two [f.write] calls of one iteration write. *)
Definition block (img_file text : pystr) : pystr :=
  header_line img_file ++ text_lines text.

(** The [for] loop; [written] is what has been written to [f] so far.  A
    write of a text that UTF-8 cannot encode raises and writes nothing. *)
Fixpoint batch_loop {image} (w : batch_env image) (entries : list pystr)
    (written : pystr) : pystr * outcome unit :=
  match entries with
  | [] => (written, Returns tt)
  | img_file :: rest =>
      if is_image_name img_file then
        let img_path := os_path_join folder_path img_file in
        match Image_open w img_path with
        | Raises e => (written, Raises e)
        | Returns img =>
            match image_to_string w img with
            | Raises e => (written, Raises e)
            | Returns text =>
                if negb (utf8_encodable (header_line img_file)) then
                  (written,
                   Raises (encode_error (batch_system w) (header_line img_file)))
                else
                  let written := written ++ header_line img_file in
                  if negb (utf8_encodable (text_lines text)) then
                    (written,
                     Raises (encode_error (batch_system w) (text_lines text)))
                  else batch_loop w rest (written ++ text_lines text)
            end
        end
      else batch_loop w rest written
  end.

(** The script: [open(output_file, "w")] empties the file, the loop writes
    to it, and leaving the [with] block closes it, also when the loop
    raises; then comes the closing [print]. *)
Definition main_script {image} (w : batch_env image) (fs : filesystem)
    : filesystem * outcome unit :=
  match open_error (batch_system w) fs output_file with
  | Some e => (fs, Raises e)
  | None =>
      match listdir w with
      | Raises e => (<[output_file := Text []]> fs, Raises e)
      | Returns entries =>
          let '(written, r) := batch_loop w entries [] in
          let fs' := <[output_file := Text written]> fs in
          match r with
          | Raises e => (fs', Raises e)
          | Returns _ =>
              match print_error w with
              | Some e => (fs', Raises e)
              | None => (fs', Returns tt)
              end
          end
      end
  end.

(** ** Induction on values *)

Definition pyval_ind (P : pyval -> Prop)
    (HStr : forall s, P (PStr s))
    (HInt : forall z, P (PInt z))
    (HBool : forall b, P (PBool b))
    (HFloat : forall f, P (PFloat f))
    (HNone : P PNone)
    (HList : forall items, Forall P items -> P (PList items))
    (HTuple : forall items, Forall P items -> P (PTuple items))
    (HDict : forall kvs, Forall (fun kv => P (snd kv)) kvs -> P (PDict kvs))
    (HOther : forall r, P (POther r)) : forall obj, P obj :=
  fix go (obj : pyval) : P obj :=
    let go_items :=
      fix go_items (l : list pyval) : Forall P l :=
        match l with
        | [] => ListDef.Forall_nil P
        | x :: l' => ListDef.Forall_cons P x l' (go x) (go_items l')
        end in
    let go_kvs :=
      fix go_kvs (l : list (pystr * pyval)) : Forall (fun kv => P (snd kv)) l :=
        match l with
        | [] => ListDef.Forall_nil _
        | kv :: l' => ListDef.Forall_cons (fun kv => P (snd kv)) kv l' (go (snd kv)) (go_kvs l')
        end in
    match obj with
    | PStr s => HStr s
    | PInt z => HInt z
    | PBool b => HBool b
    | PFloat f => HFloat f
    | PNone => HNone
    | PList items => HList items (go_items items)
    | PTuple items => HTuple items (go_items items)
    | PDict kvs => HDict kvs (go_kvs kvs)
    | POther r => HOther r
    end.


(** ** Concrete services for examples *)

(** An engine that finds one line of text with its confidence. *)
Definition demo_result : pyval :=
  PList [PList [PList [PInt 0; PInt 0]; PTuple [PStr (lit " Hello "); PFloat 0.5]]].

(** An operating system that refuses nothing the file map allows. *)
Definition plain_os : os_model :=
  {| os_denies := fun _ _ => None;
     os_denies_read := fun _ _ => None;
     os_message := fun class p => lit "[Errno] " ++ p;
     encode_message := fun _ => lit "surrogates not allowed" |}.

(** An operating system that lets nothing be written. *)
Definition readonly_os : os_model :=
  {| os_denies := fun _ p =>
       Some (Exn "PermissionError" (lit "[Errno 13] Permission denied"));
     os_denies_read := fun _ _ => None;
     os_message := fun class p => lit "[Errno] " ++ p;
     encode_message := fun _ => lit "surrogates not allowed" |}.

(** An operating system that lets nothing be read. *)
Definition sealed_os : os_model :=
  {| os_denies := fun _ _ => None;
     os_denies_read := fun _ p =>
       Some (Exn "PermissionError" (lit "[Errno 13] Permission denied"));
     os_message := fun class p => lit "[Errno] " ++ p;
     encode_message := fun _ => lit "surrogates not allowed" |}.

Definition demo_services : services :=
  {| BASE_DIR := [lit "srv"];
     secure_filename := fun s => s;
     predict := fun _ _ => Returns demo_result;
     json_dumps := fun _ => Returns (lit "[]");
     allowed_repr := lit "{'.png'}";
     frames_left := 900;
     recursion_message := lit "maximum recursion depth exceeded";
     system := plain_os |}.

(** An engine that finds nothing. *)
Definition blank_services : services :=
  {| BASE_DIR := [lit "srv"];
     secure_filename := fun s => s;
     predict := fun _ _ => Returns (PList []);
     json_dumps := fun _ => Returns (lit "[]");
     allowed_repr := lit "{'.png'}";
     frames_left := 900;
     recursion_message := lit "maximum recursion depth exceeded";
     system := plain_os |}.

(** An engine that raises on every image. *)
Definition failing_services : services :=
  {| BASE_DIR := [lit "srv"];
     secure_filename := fun s => s;
     predict := fun _ _ => Raises (Exn "RuntimeError" (lit "cannot read image"));
     json_dumps := fun _ => Returns (lit "[]");
     allowed_repr := lit "{'.png'}";
     frames_left := 900;
     recursion_message := lit "maximum recursion depth exceeded";
     system := plain_os |}.

(** An engine that reads a line with a lone surrogate in it. *)
Definition surrogate_services : services :=
  {| BASE_DIR := [lit "srv"];
     secure_filename := fun s => s;
     predict := fun _ _ => Returns (PList [PStr [97%N; 55296%N]]);
     json_dumps := fun _ => Returns (lit "[]");
     allowed_repr := lit "{'.png'}";
     frames_left := 900;
     recursion_message := lit "maximum recursion depth exceeded";
     system := plain_os |}.

(** The demo engine on a disk that cannot be written. *)
Definition readonly_services : services :=
  {| BASE_DIR := [lit "srv"];
     secure_filename := fun s => s;
     predict := fun _ _ => Returns demo_result;
     json_dumps := fun _ => Returns (lit "[]");
     allowed_repr := lit "{'.png'}";
     frames_left := 900;
     recursion_message := lit "maximum recursion depth exceeded";
     system := readonly_os |}.

(** The demo engine on a disk that cannot be read. *)
Definition sealed_services : services :=
  {| BASE_DIR := [lit "srv"];
     secure_filename := fun s => s;
     predict := fun _ _ => Returns demo_result;
     json_dumps := fun _ => Returns (lit "[]");
     allowed_repr := lit "{'.png'}";
     frames_left := 900;
     recursion_message := lit "maximum recursion depth exceeded";
     system := sealed_os |}.

Definition demo_output_dir : path := [lit "srv"; lit "output"].

Definition demo_image : path := [lit "srv"; lit "output"; lit "scan.png"].

(** The output directory, empty. *)
Definition served_fs : gmap path content :=
  {[ demo_output_dir := Dir ]}.

(** The output directory with one uploaded image. *)
Definition demo_fs : gmap path content :=
  <[ demo_image := Bytes [137%N; 80%N] ]> served_fs.

(** A folder with two images and a text file; the "images" are their own
    paths and the recognised text says which image it came from. *)
Definition demo_batch : batch_env pystr :=
  {| listdir := Returns [lit "a.PNG"; lit "notes.txt"; lit "b.jpeg"];
     Image_open := fun img_path => Returns img_path;
     image_to_string := fun img => Returns (lit "text of " ++ img);
     print_error := None;
     batch_system := plain_os |}.


Definition demo_file : FileStorage :=
  {| filename := lit "scan.PNG"; stream := [137%N; 80%N] |}.

Definition demo_upload : list (pystr * FileStorage) :=
  [(lit "file", demo_file)].

(** ** Notions the further properties are stated with *)

(** [len(obj) >= 2 and isinstance(obj[1], (list, tuple))] *)
Definition second_is_seq (items : list pyval) : bool :=
  match items with
  | _ :: (PList _ | PTuple _) :: _ => true
  | _ => false
  end.

(** [len(sec) >= 1 and isinstance(sec[0], str)] *)
Definition head_is_str (items : list pyval) : bool :=
  match items with
  | PStr _ :: _ => true
  | _ => false
  end.

(** A name without a path separator. *)
Definition no_slash (s : pystr) : bool :=
  forallb (fun c => negb (c =? SLASH)%N) s.

(** The same libraries, terminal and system over another listing of the
    folder. *)
Definition with_listing {image} (w : batch_env image) (entries : list pystr)
    : batch_env image :=
  {| listdir := Returns entries;
     Image_open := Image_open w;
     image_to_string := image_to_string w;
     print_error := print_error w;
     batch_system := batch_system w |}.


(** * Properties *)

(** ** Trimming *)

Section Strip.

Implicit Types s u : pystr.

Lemma lstrip_clean_head s : clean_head (lstrip s).
Proof.
  induction s as [|c s IH]; simpl; [exact I|].
  destruct (py_isspace c) eqn:E; [exact IH | exact E].
Qed.

Lemma lstrip_fixed s : clean_head s -> lstrip s = s.
Proof. destruct s as [|c s]; simpl; [reflexivity|]. now intros ->. Qed.

Lemma lstrip_drop s : exists k, lstrip s = drop k s.
Proof.
  induction s as [|c s [k IH]]; simpl.
  - now exists 0%nat.
  - destruct (py_isspace c); [exists (S k); exact IH | now exists 0%nat].
Qed.

Lemma lstrip_nil s : lstrip s = [] <-> forallb py_isspace s = true.
Proof.
  induction s as [|c s IH]; simpl; [tauto|].
  destruct (py_isspace c); simpl; [exact IH|].
  split; discriminate.
Qed.

Lemma rstrip_take s : exists k, rstrip s = take k s.
Proof.
  unfold rstrip. destruct (lstrip_drop (rev s)) as [k ->].
  exists (length s - k)%nat.
  rewrite skipn_rev, rev_involutive. reflexivity.
Qed.

Lemma clean_head_take k s : clean_head s -> clean_head (take k s).
Proof. destruct k, s; simpl; auto. Qed.

Lemma rstrip_clean_head s : clean_head s -> clean_head (rstrip s).
Proof.
  intros H. destruct (rstrip_take s) as [k ->]. now apply clean_head_take.
Qed.

Lemma rstrip_clean_last s : clean_head (rev (rstrip s)).
Proof. unfold rstrip. rewrite rev_involutive. apply lstrip_clean_head. Qed.

Lemma rstrip_fixed s : clean_head (rev s) -> rstrip s = s.
Proof.
  intros H. unfold rstrip. rewrite (lstrip_fixed _ H). apply rev_involutive.
Qed.

(** Trimming a trimmed string changes nothing. *)
Lemma strip_idempotent s : strip (strip s) = strip s.
Proof.
  unfold strip at 1.
  rewrite (lstrip_fixed (strip s)).
  - apply rstrip_fixed. apply rstrip_clean_last.
  - apply rstrip_clean_head, lstrip_clean_head.
Qed.

Lemma forallb_rev_isspace s :
  forallb py_isspace (rev s) = forallb py_isspace s.
Proof.
  induction s as [|c s IH]; simpl; [reflexivity|].
  rewrite forallb_app, IH. simpl. rewrite andb_true_r. apply andb_comm.
Qed.

Lemma lstrip_spaces s :
  forallb py_isspace (lstrip s) = true -> forallb py_isspace s = true.
Proof.
  induction s as [|c s IH]; simpl; [reflexivity|].
  destruct (py_isspace c) eqn:E; simpl; [exact IH|].
  rewrite E. discriminate.
Qed.

(** The trimmed string is empty exactly when the string is whitespace
    only. *)
Lemma strip_nil s : strip s = [] <-> forallb py_isspace s = true.
Proof.
  unfold strip, rstrip. split.
  - intros H. apply (f_equal (@rev N)) in H.
    rewrite rev_involutive in H. simpl in H.
    apply lstrip_nil in H. rewrite forallb_rev_isspace in H.
    now apply lstrip_spaces.
  - intros H.
    assert (Hl : lstrip s = []) by now apply lstrip_nil.
    rewrite Hl. reflexivity.
Qed.

Lemma truthy_true s : truthy s = true <-> s <> [].
Proof. destruct s; simpl; split; congruence. Qed.

Lemma truthy_false s : truthy s = false <-> s = [].
Proof. destruct s; simpl; split; congruence. Qed.

End Strip.

(** ** The flattening: how [rec] unfolds *)

Lemma append_text_acc s texts : append_text s texts = texts ++ append_text s [].
Proof. unfold append_text. destruct (truthy (strip s)); simpl; now rewrite ?app_nil_r. Qed.

Lemma text_conf_Some items s :
  text_conf items = Some s ->
  exists c, items = [PStr s; c] /\ is_number c = true.
Proof.
  destruct items as [|x [|c [|y l]]]; simpl; try discriminate.
  all: destruct x; try discriminate.
  destruct (is_number c) eqn:E; intros H; [|discriminate H].
  injection H as ->. now exists c.
Qed.

(** One activation of [rec] appends [rec_appends obj] and then calls itself
    on each of [rec_calls obj] in turn. *)
Lemma rec_unfold obj texts :
  rec obj texts =
  fold_left (fun acc c => rec c acc) (rec_calls obj) (texts ++ rec_appends obj).
Proof.
  assert (Hseq : forall items,
    match text_conf items with
    | Some s => append_text s texts
    | None =>
        match items with
        | _ :: (PList sec | PTuple sec) :: _ =>
            match sec with
            | PStr s1 :: _ => append_text s1 texts
            | _ => walk rec sec texts
            end
        | _ => walk rec items texts
        end
    end =
    fold_left (fun acc c => rec c acc) (rec_calls (PList items))
              (texts ++ rec_appends (PList items))).
  { intros items. unfold rec_calls, rec_appends, walk.
    destruct (text_conf items) as [s|].
    - simpl. apply append_text_acc.
    - destruct items as [|x [|y rest]]; simpl; rewrite ?app_nil_r; try reflexivity.
      destruct y; simpl; rewrite ?app_nil_r; try reflexivity;
        (destruct items as [|[] sec]; simpl; rewrite ?app_nil_r;
         try reflexivity; apply append_text_acc). }
  destruct obj; simpl; rewrite ?app_nil_r; try reflexivity.
  - apply append_text_acc.
  - apply Hseq.
  - apply Hseq.
  - unfold rec_calls. generalize texts.
    induction kvs as [|kv kvs IH]; simpl; [reflexivity|].
    intros t. apply IH.
Qed.

(** ** Sub-elements and depth *)

Lemma depth_items_bound (c : pyval) (items : list pyval) :
  In c items ->
  (depth c <= fold_right (fun c d => Nat.max (depth c) d) 0 items)%nat.
Proof.
  induction items as [|x items IH]; simpl; [tauto|].
  intros [->|H]; [lia|]. specialize (IH H). lia.
Qed.

Lemma depth_values_bound (c : pyval) (kvs : list (pystr * pyval)) :
  In c (map snd kvs) ->
  (depth c <= fold_right (fun kv d => Nat.max (depth (snd kv)) d) 0 kvs)%nat.
Proof.
  induction kvs as [|kv kvs IH]; simpl; [tauto|].
  intros [<-|H]; [lia|]. specialize (IH H). lia.
Qed.

Lemma depth_child (c obj : pyval) :
  In c (children obj) -> (depth c < depth obj)%nat.
Proof.
  destruct obj; simpl; try tauto; intros H.
  - apply depth_items_bound in H. lia.
  - apply depth_items_bound in H. lia.
  - apply depth_values_bound in H. lia.
Qed.

Lemma subelem_depth (c obj : pyval) :
  subelem c obj -> (depth c < depth obj)%nat.
Proof.
  induction 1 as [obj H|mid obj _ IH H].
  - now apply depth_child.
  - apply depth_child in H. lia.
Qed.

Lemma subelem_wf : well_founded subelem.
Proof.
  apply (well_founded_lt_compat _ depth). intros c obj. apply subelem_depth.
Qed.

(** Induction over a value with every strict sub-element at hand. *)
Lemma subelem_induction (P : pyval -> Prop) :
  (forall obj, (forall c, subelem c obj -> P c) -> P obj) ->
  forall obj, P obj.
Proof. intros H obj. induction (subelem_wf obj) as [obj _ IH]. auto. Qed.

(** Every recursive call of [rec] is on a strict sub-element of its
    argument: a child, or a child of the second child. *)
Lemma rec_calls_subelem (c obj : pyval) :
  In c (rec_calls obj) -> subelem c obj.
Proof.
  assert (Hseq : forall items,
            In c (rec_calls (PList items)) ->
            In c items \/
            exists sec, In sec items /\ In c (children sec)).
  { intros items. simpl. destruct (text_conf items); [simpl; tauto|].
    destruct items as [|x [|y rest]]; simpl; try tauto.
    destruct y; simpl; try tauto;
      (destruct items as [|[] tl]; simpl; try tauto;
       intros H; right; eexists; (split; [right; left; reflexivity|simpl; tauto])). }
  destruct obj; simpl; try tauto.
  - intros H. destruct (Hseq _ H) as [Hc|(sec & Hs & Hc)].
    + now apply subelem_child.
    + eapply subelem_step; [apply subelem_child, Hc | exact Hs].
  - intros H. destruct (Hseq _ H) as [Hc|(sec & Hs & Hc)].
    + now apply subelem_child.
    + eapply subelem_step; [apply subelem_child, Hc | exact Hs].
  - intros H. now apply subelem_child.
Qed.

(** ** The flattening: the accumulator *)

Lemma fold_rec_acc (calls : list pyval) :
  Forall (fun c => forall texts, rec c texts = texts ++ rec c []) calls ->
  forall texts,
    fold_left (fun acc c => rec c acc) calls texts =
    texts ++ flat_map (fun c => rec c []) calls.
Proof.
  induction 1 as [|c calls Hc _ IH]; intros texts; simpl.
  - now rewrite app_nil_r.
  - rewrite IH, Hc, app_assoc. reflexivity.
Qed.

(** [rec] only ever appends to [texts]. *)
Lemma rec_acc obj : forall texts, rec obj texts = texts ++ rec obj [].
Proof.
  induction obj as [obj IH] using subelem_induction. intros texts.
  assert (Hcalls : Forall (fun c => forall t, rec c t = t ++ rec c [])
                          (rec_calls obj)).
  { apply Forall_forall. intros c Hc. apply IH, rec_calls_subelem.
    now apply list_elem_of_In. }
  rewrite (rec_unfold obj texts), (rec_unfold obj []).
  rewrite !(fold_rec_acc _ Hcalls). simpl. now rewrite app_assoc.
Qed.

(** What [rec] collects from a value: its own appends, then what it
    collects from each value it calls itself on. *)
Lemma rec_flat obj :
  rec obj [] = rec_appends obj ++ flat_map (fun c => rec c []) (rec_calls obj).
Proof.
  rewrite rec_unfold. simpl. apply fold_rec_acc.
  apply Forall_forall. intros c _. apply rec_acc.
Qed.

(** ** The flattening: what is collected, and in which order *)

Lemma append_text_trimmed s : Forall well_trimmed (append_text s []).
Proof.
  unfold append_text. destruct (truthy (strip s)) eqn:E; simpl; constructor.
  - split; [now apply truthy_true | apply strip_idempotent].
  - constructor.
Qed.

Lemma rec_appends_trimmed obj : Forall well_trimmed (rec_appends obj).
Proof.
  assert (Hseq : forall items, Forall well_trimmed (rec_appends (PList items))).
  { intros items. simpl. destruct (text_conf items).
    - apply append_text_trimmed.
    - destruct items as [|x [|y rest]]; try constructor.
      destruct y; try constructor;
        (destruct items as [|[] tl]; try constructor; apply append_text_trimmed). }
  destruct obj; try constructor.
  - apply append_text_trimmed.
  - apply Hseq.
  - apply Hseq.
Qed.

Lemma Forall_flat_map_in {A B} (P : B -> Prop) (f : A -> list B) (l : list A) :
  (forall x, In x l -> Forall P (f x)) -> Forall P (flat_map f l).
Proof.
  induction l as [|x l IH]; simpl; intros H; [constructor|].
  apply Forall_app. split; [apply H; now left | apply IH; auto].
Qed.

Lemma sublist_flat_map_in {A B} (f g : A -> list B) (l : list A) :
  (forall x, In x l -> sublist (f x) (g x)) ->
  sublist (flat_map f l) (flat_map g l).
Proof.
  induction l as [|x l IH]; simpl; intros H; [constructor|].
  apply sublist_app; [apply H; now left | apply IH; auto].
Qed.

Lemma flat_map_values {B} (f : pyval -> list B) (kvs : list (pystr * pyval)) :
  flat_map f (map snd kvs) = flat_map (fun kv => f (snd kv)) kvs.
Proof. induction kvs as [|kv kvs IH]; simpl; [reflexivity|now rewrite IH]. Qed.

(** Everything [rec] collects is non-empty and trimmed. *)
Lemma rec_trimmed obj : Forall well_trimmed (rec obj []).
Proof.
  induction obj as [obj IH] using subelem_induction.
  rewrite rec_flat. apply Forall_app. split.
  - apply rec_appends_trimmed.
  - apply Forall_flat_map_in. intros c Hc. apply IH, rec_calls_subelem, Hc.
Qed.

(** One activation keeps the order of the walk: its own appends and then
    the leaves under its calls are met in that order by the walk. *)
Lemma rec_step_sublist obj :
  sublist (rec_appends obj ++ flat_map dfs_texts (rec_calls obj))
          (dfs_texts obj).
Proof.
  assert (Hseq : forall items,
            sublist (rec_appends (PList items)
                       ++ flat_map dfs_texts (rec_calls (PList items)))
                    (flat_map dfs_texts items)).
  { intros items. simpl. destruct (text_conf items) as [s|] eqn:E.
    - apply text_conf_Some in E as (c & -> & _). simpl.
      rewrite app_nil_r. now apply sublist_inserts_r.
    - destruct items as [|x [|y rest]]; simpl; try reflexivity.
      destruct y; simpl; try reflexivity;
        (destruct items as [|[] tl]; simpl; rewrite ?app_nil_r;
         first
           [ apply sublist_nil_l
           | solve [apply sublist_inserts_l, sublist_inserts_r; reflexivity]
           | solve [apply sublist_inserts_l, sublist_inserts_r,
                      sublist_inserts_r; reflexivity] ]). }
  destruct obj; simpl; rewrite ?app_nil_r; try reflexivity.
  - apply Hseq.
  - apply Hseq.
  - rewrite flat_map_values. reflexivity.
Qed.

Lemma rec_sublist obj : sublist (rec obj []) (dfs_texts obj).
Proof.
  induction obj as [obj IH] using subelem_induction.
  rewrite rec_flat. etransitivity; [|apply rec_step_sublist].
  apply sublist_app; [reflexivity|].
  apply sublist_flat_map_in. intros c Hc. apply IH, rec_calls_subelem, Hc.
Qed.

Lemma filter_truthy_trimmed (l : list pystr) :
  Forall well_trimmed l -> List.filter truthy l = l.
Proof.
  induction 1 as [|t l [Ht _] _ IH]; simpl; [reflexivity|].
  apply truthy_true in Ht. now rewrite Ht, IH.
Qed.

Lemma extract_is_rec result : extract_texts_from_predict result = rec result [].
Proof. apply filter_truthy_trimmed, rec_trimmed. Qed.

(** A detection result in the engine's usual shape: the box is skipped and
    the text of each (text, confidence) pair is kept. *)
Example extract_boxes_and_pairs :
  extract_texts_from_predict
    (PList [PList [PList [PList [PInt 1; PInt 2]; PList [PInt 3; PInt 4]];
                   PTuple [PStr (lit " Total: 42 "); PFloat 0.5]]])
  = [lit "Total: 42"].
Proof. reflexivity. Qed.

(** Dict values are walked in order; blank strings are dropped. *)
Example extract_dict_values :
  extract_texts_from_predict
    (PDict [(lit "rec_texts", PList [PStr (lit "a"); PStr (lit "  ");
                                     PStr (lit "c")]);
            (lit "rec_scores", PList [PFloat 0.5; PFloat 0.25; PFloat 1])])
  = [lit "a"; lit "c"].
Proof. reflexivity. Qed.

(** C1: every element of the list [extract_texts_from_predict] returns is a
    non-empty string equal to its own trimmed form, and the elements come in
    the order in which the depth-first, left-to-right walk of the input
    meets their leaves: the list is an order-preserving selection from the
    walk's trimmed, non-empty string leaves. *)
Theorem extract_texts_trimmed_in_walk_order (result : pyval) :
  Forall well_trimmed (extract_texts_from_predict result) /\
  sublist (extract_texts_from_predict result) (dfs_texts result).
Proof.
  rewrite extract_is_rec. split; [apply rec_trimmed | apply rec_sublist].
Qed.

(** C2: on a two-element list or tuple of a string and a number, the result
    is the trimmed string alone when that is non-empty and the empty list
    when the string is whitespace only; nothing in the result comes from
    the number. *)
Theorem text_confidence_pair (s : pystr) (c : pyval) :
  is_number c = true ->
  (strip s <> [] ->
   extract_texts_from_predict (PList [PStr s; c]) = [strip s] /\
   extract_texts_from_predict (PTuple [PStr s; c]) = [strip s]) /\
  (forallb py_isspace s = true ->
   extract_texts_from_predict (PList [PStr s; c]) = [] /\
   extract_texts_from_predict (PTuple [PStr s; c]) = []) /\
  (forall t, In t (extract_texts_from_predict (PList [PStr s; c])) \/
             In t (extract_texts_from_predict (PTuple [PStr s; c])) ->
             t = strip s).
Proof.
  intros Hc.
  assert (HL : extract_texts_from_predict (PList [PStr s; c])
               = append_text s []).
  { rewrite extract_is_rec. simpl. now rewrite Hc. }
  assert (HT : extract_texts_from_predict (PTuple [PStr s; c])
               = append_text s []).
  { rewrite extract_is_rec. simpl. now rewrite Hc. }
  rewrite HL, HT. unfold append_text. split; [|split].
  - intros Hs%truthy_true. now rewrite Hs.
  - intros Hs%strip_nil. now rewrite Hs.
  - intros t. destruct (truthy (strip s)); simpl; intuition congruence.
Qed.

Lemma text_confidence_pair_witness :
  is_number (PFloat 0.5) = true /\
  extract_texts_from_predict (PTuple [PStr (lit " Hello "); PFloat 0.5])
  = [strip (lit " Hello ")].
Proof.
  split; [reflexivity|].
  apply (text_confidence_pair (lit " Hello ") (PFloat 0.5) eq_refl).
  vm_compute. discriminate.
Defined.

(** ** Termination of [rec] *)

Lemma fold_rec_fuel (fuel : nat) (calls : list pyval) :
  Forall (fun c => forall t, rec_fuel fuel c t = Some (rec c t)) calls ->
  forall texts,
    fold_left (fun acc c => match acc with
                            | Some t => rec_fuel fuel c t
                            | None => None
                            end) calls (Some texts)
    = Some (fold_left (fun acc c => rec c acc) calls texts).
Proof.
  induction 1 as [|c calls Hc _ IH]; intros texts; simpl; [reflexivity|].
  rewrite Hc. apply IH.
Qed.

(** With a call stack deeper than the value is nested, the run of [rec]
    comes to an end, with the list the structural definition gives. *)
Lemma rec_fuel_enough (fuel : nat) :
  forall obj texts,
    (depth obj < fuel)%nat -> rec_fuel fuel obj texts = Some (rec obj texts).
Proof.
  induction fuel as [|fuel IH]; intros obj texts Hd; [lia|].
  simpl. rewrite fold_rec_fuel, <- rec_unfold; [reflexivity|].
  apply Forall_forall. intros c Hc t. apply IH.
  apply list_elem_of_In, rec_calls_subelem, subelem_depth in Hc. lia.
Qed.

Lemma rec_call_wf : well_founded rec_call.
Proof.
  apply (well_founded_lt_compat _ depth). intros c obj Hc.
  now apply subelem_depth, rec_calls_subelem.
Qed.

(** C8: [rec] ends on every value.  Each call it makes is on a strict
    sub-element of its argument, of smaller depth, so the call relation is
    well-founded; run with a call stack deeper than the value's depth it
    returns, and returns what [rec] is defined to give. *)
Theorem rec_terminates (obj : pyval) (texts : list pystr) (fuel : nat) :
  (depth obj < fuel)%nat ->
  Forall (fun c => subelem c obj /\ (depth c < depth obj)%nat) (rec_calls obj) /\
  Acc rec_call obj /\
  rec_fuel fuel obj texts = Some (rec obj texts).
Proof.
  intros Hd. split; [|split].
  - apply Forall_forall. intros c Hc%list_elem_of_In%rec_calls_subelem.
    split; [exact Hc | now apply subelem_depth].
  - apply rec_call_wf.
  - now apply rec_fuel_enough.
Qed.

Lemma rec_terminates_witness :
  (depth demo_result < 4)%nat /\
  rec_fuel 4 demo_result [] = Some [lit "Hello"].
Proof.
  assert (Hd : (depth demo_result < 4)%nat) by (vm_compute; lia).
  split; [exact Hd|].
  destruct (rec_terminates demo_result [] 4 Hd) as (_ & _ & ->).
  reflexivity.
Defined.

(** C9: the flattening leaves string leaves out.  When the second element
    of a list or tuple is itself a list or tuple that begins with a string,
    that string (trimmed, if not empty) is all that is extracted: the first
    element, the rest of the inner sequence and every later element are
    dropped.  On [['a', ['b', 'c']]] the result is [['b']], while the walk
    meets 'a', 'b' and 'c'. *)
Theorem second_sequence_shadows_siblings
    (x : pyval) (s : pystr) (tl rest : list pyval) :
  let kept := append_text s [] in
  extract_texts_from_predict (PList (x :: PList (PStr s :: tl) :: rest)) = kept /\
  extract_texts_from_predict (PList (x :: PTuple (PStr s :: tl) :: rest)) = kept /\
  extract_texts_from_predict (PTuple (x :: PList (PStr s :: tl) :: rest)) = kept /\
  extract_texts_from_predict (PTuple (x :: PTuple (PStr s :: tl) :: rest)) = kept /\
  let example := PList [PStr (lit "a"); PList [PStr (lit "b"); PStr (lit "c")]] in
  extract_texts_from_predict example = [lit "b"] /\
  dfs_texts example = [lit "a"; lit "b"; lit "c"].
Proof.
  simpl. rewrite !extract_is_rec.
  repeat split; try reflexivity;
    (destruct x, rest; reflexivity).
Qed.


(** ** The flattening under the recursion limit *)

Lemma fold_rec_fuel_None (fuel : nat) (calls : list pyval) :
  fold_left (fun acc c => match acc with
                          | Some t => rec_fuel fuel c t
                          | None => None
                          end) calls None = None.
Proof. induction calls as [|c calls IH]; simpl; [reflexivity|exact IH]. Qed.

Lemma fold_rec_fuel_sound (fuel : nat) (calls : list pyval) :
  (forall c t t', rec_fuel fuel c t = Some t' -> t' = rec c t) ->
  forall texts out,
    fold_left (fun acc c => match acc with
                            | Some t => rec_fuel fuel c t
                            | None => None
                            end) calls (Some texts) = Some out ->
    out = fold_left (fun acc c => rec c acc) calls texts.
Proof.
  intros Hc. induction calls as [|c calls IH]; intros texts out; simpl.
  - now intros [= <-].
  - destruct (rec_fuel fuel c texts) as [t|] eqn:E.
    + rewrite (Hc c texts t E). apply IH.
    + rewrite fold_rec_fuel_None. discriminate.
Qed.

(** A run of [rec] that ends within the limit gives what [rec] is defined
    to give. *)
Lemma rec_fuel_sound (fuel : nat) :
  forall obj texts out,
    rec_fuel fuel obj texts = Some out -> out = rec obj texts.
Proof.
  induction fuel as [|fuel IH]; intros obj texts out; simpl; [discriminate|].
  intros H. rewrite rec_unfold. now apply (fold_rec_fuel_sound fuel).
Qed.

Lemma run_extract_returns (w : services) (result : pyval)
    (texts : list pystr) :
  run_extract w result = Returns texts ->
  texts = extract_texts_from_predict result.
Proof.
  unfold run_extract, extract_texts_from_predict.
  destruct (rec_fuel (frames_left w) result []) as [t|] eqn:E; [|discriminate].
  intros [= <-]. now rewrite (rec_fuel_sound _ _ _ _ E).
Qed.

Lemma run_extract_enough (w : services) (result : pyval) :
  (depth result < frames_left w)%nat ->
  run_extract w result = Returns (extract_texts_from_predict result).
Proof.
  intros H. unfold run_extract. now rewrite rec_fuel_enough.
Qed.

(** ** File names *)

Lemma rfind_None (c : N) (s : pystr) : rfind c s = None -> ~ In c s.
Proof.
  induction s as [|x s IH]; simpl; [tauto|].
  destruct (rfind c s); [discriminate|].
  destruct (N.eqb_spec x c) as [->|Hne]; [discriminate|].
  intros _ [E|Hin]; [congruence | now apply IH].
Qed.

Lemma rfind_split (c : N) (s : pystr) (i : nat) :
  rfind c s = Some i ->
  exists pre post,
    s = pre ++ c :: post /\ length pre = i /\ ~ In c post.
Proof.
  revert i. induction s as [|x s IH]; intros i; simpl; [discriminate|].
  destruct (rfind c s) as [j|] eqn:E.
  - intros [= <-]. destruct (IH j eq_refl) as (pre & post & -> & Hl & Hp).
    exists (x :: pre), post. simpl. now rewrite Hl.
  - destruct (N.eqb_spec x c) as [->|_]; [|discriminate].
    intros [= <-]. exists [], s. repeat split. now apply rfind_None.
Qed.

(** A non-empty suffix starts at the last dot of the name, which has
    something before it and something after it. *)
Lemma path_suffix_split (p : path) :
  path_suffix p <> [] ->
  exists stem ext,
    path_name p = stem ++ DOT :: ext /\ stem <> [] /\ ext <> [] /\
    ~ In DOT ext /\
    path_suffix p = DOT :: ext.
Proof.
  unfold path_suffix. destruct (rfind DOT (path_name p)) as [i|] eqn:E;
    [|congruence].
  destruct (rfind_split _ _ _ E) as (pre & post & Hn & Hl & Hp).
  destruct ((0 <? i)%nat && (i <? length (path_name p) - 1)%nat) eqn:C;
    [|congruence].
  intros _. apply andb_true_iff in C as [C1 C2].
  apply Nat.ltb_lt in C1. apply Nat.ltb_lt in C2.
  rewrite Hn in *. rewrite length_app in C2. simpl in C2.
  exists pre, post. split; [reflexivity|].
  split; [destruct pre; simpl in *; [lia|discriminate]|].
  split; [destruct post; simpl in *; [lia|discriminate]|].
  split; [exact Hp|].
  rewrite <- Hl. now rewrite drop_app_length.
Qed.

(** The stem [with_suffix] keeps and the suffix make up the name. *)
Lemma stem_suffix (p : path) :
  take (length (path_name p) - length (path_suffix p)) (path_name p)
    ++ path_suffix p
  = path_name p.
Proof.
  destruct (path_suffix p) as [|c sfx] eqn:E.
  - simpl. rewrite Nat.sub_0_r, firstn_all. apply app_nil_r.
  - assert (H : path_suffix p <> []) by (rewrite E; discriminate).
    destruct (path_suffix_split p H) as (stem & ext & Hn & _ & _ & _ & Hs).
    rewrite <- E, Hs, Hn.
    replace (length (stem ++ DOT :: ext) - length (DOT :: ext))%nat
      with (length stem) by (rewrite length_app; lia).
    now rewrite take_app_length.
Qed.

Lemma allowed_suffix (filename : pystr) :
  allowed_filename filename = true ->
  lower (path_suffix (components filename)) ∈ ALLOWED_EXTENSIONS.
Proof. unfold allowed_filename. apply bool_decide_eq_true_1. Qed.

Lemma allowed_suffix_nonempty (filename : pystr) :
  allowed_filename filename = true ->
  path_suffix (components filename) <> [].
Proof.
  intros H E. unfold allowed_filename in H. rewrite E in H.
  vm_compute in H. discriminate H.
Qed.

Lemma join_nonempty (sep t : pystr) (ts : list pystr) :
  t <> [] -> join sep (t :: ts) <> [].
Proof.
  intros Ht. simpl. destruct ts; [exact Ht|].
  destruct t; [congruence|discriminate].
Qed.

Lemma extract_head_nonempty (result : pyval) (t : pystr) (ts : list pystr) :
  extract_texts_from_predict result = t :: ts -> t <> [].
Proof.
  intros E. pose proof (rec_trimmed result) as H.
  rewrite <- extract_is_rec, E in H. inversion H as [|? ? [Ht _] _]; subst.
  exact Ht.
Qed.

(** ** The paths of an accepted upload *)

Lemma path_div_components (base : path) (s : pystr) :
  exists pre, path_div base s = pre ++ components s.
Proof.
  destruct s as [|c s]; simpl.
  - exists base. now rewrite app_nil_r.
  - destruct (c =? SLASH)%N; [now exists [] | now exists base].
Qed.

Lemma path_name_app (pre cs : path) :
  cs <> [] -> path_name (pre ++ cs) = path_name cs.
Proof.
  intros H. unfold path_name.
  induction pre as [|x pre IH]; simpl; [reflexivity|].
  destruct (pre ++ cs) eqn:E; [|exact IH].
  apply app_eq_nil in E as [_ E]. congruence.
Qed.

Lemma path_suffix_app (pre cs : path) :
  cs <> [] -> path_suffix (pre ++ cs) = path_suffix cs.
Proof. intros H. unfold path_suffix. now rewrite path_name_app. Qed.

Lemma allowed_components_nonempty (filename : pystr) :
  allowed_filename filename = true -> components filename <> [].
Proof.
  intros H E. apply (allowed_suffix_nonempty _ H). now rewrite E.
Qed.

(** The saved image keeps the last component of the sanitized name, and
    with it its allowed suffix. *)
Lemma saved_path_suffix (base : path) (filename : pystr) :
  allowed_filename filename = true ->
  path_div base filename <> [] /\
  path_name (path_div base filename) = path_name (components filename) /\
  path_suffix (path_div base filename) = path_suffix (components filename).
Proof.
  intros H. pose proof (allowed_components_nonempty _ H) as Hc.
  destruct (path_div_components base filename) as [pre ->].
  split; [|split].
  - intros E. apply app_eq_nil in E as [_ E]. congruence.
  - now apply path_name_app.
  - now apply path_suffix_app.
Qed.

(** The text file of an accepted upload is not the image itself: [.txt] is
    not an allowed extension. *)
Lemma txt_path_differs (base : path) (filename : pystr) :
  allowed_filename filename = true ->
  with_suffix (path_div base filename) (lit ".txt") <> path_div base filename.
Proof.
  intros H E.
  destruct (saved_path_suffix base filename H) as (Hne & Hn & Hs).
  set (p := path_div base filename) in *.
  unfold with_suffix in E.
  rewrite (app_removelast_last [] Hne) in E at 5.
  apply app_inv_head in E. injection E as E.
  pose proof (stem_suffix p) as Hst. unfold path_name in *.
  pose proof (eq_trans E (eq_sym Hst)) as Heq.
  apply app_inv_head in Heq.
  apply allowed_suffix in H. rewrite <- Hs, <- Heq in H.
  apply (bool_decide_pack _) in H. vm_compute in H. exact H.
Qed.

(** ** Opening, writing and making directories *)


Lemma parent_shorter (p : path) : p <> [] -> parent p <> p.
Proof.
  intros Hp. destruct (exists_last Hp) as (l & a & ->).
  unfold parent. rewrite removelast_last. intros E.
  apply (f_equal (@length pystr)) in E.
  rewrite length_app in E. simpl in E. lia.
Qed.

(** A path that can be opened for writing is not a directory and lies in
    one. *)
Lemma open_error_None (os : os_model) (fs : filesystem) (p : path) :
  open_error os fs p = None ->
  p <> [] /\ fs !! p <> Some Dir /\
  path_kind fs (parent p) = Some Dir /\ os_denies os fs p = None.
Proof.
  unfold open_error. destruct p as [|c p]; [intros H; discriminate H|].
  assert (Hgo : (if ancestor_file fs (c :: p)
                 then Some (os_error os "NotADirectoryError" (c :: p))
                 else match path_kind fs (parent (c :: p)) with
                      | Some Dir => os_denies os fs (c :: p)
                      | _ => Some (os_error os "FileNotFoundError" (c :: p))
                      end) = None ->
                path_kind fs (parent (c :: p)) = Some Dir /\
                os_denies os fs (c :: p) = None).
  { destruct (ancestor_file fs (c :: p)); [intros H; discriminate H|].
    destruct (path_kind fs (parent (c :: p))) as [[]|];
      intros H; try discriminate H. now split. }
  destruct (path_kind fs (c :: p)) as [[]|] eqn:E; intros H;
    try discriminate H;
    destruct (Hgo H) as [H1 H2]; repeat split; auto; try discriminate;
    intros X; change (path_kind fs (c :: p) = Some Dir) in X; congruence.
Qed.

(** Writing a path leaves its parent the directory it was. *)
Lemma parent_kind_insert (fs : filesystem) (p : path) (c : content) :
  p <> [] ->
  path_kind (<[p := c]> fs) (parent p) = path_kind fs (parent p).
Proof.
  intros Hp. pose proof (parent_shorter p Hp) as Hne.
  destruct (parent p) eqn:E; [reflexivity|].
  simpl. apply lookup_insert_ne. congruence.
Qed.

Lemma rev_cons_nonempty {A} (x : A) (l : list A) : rev (x :: l) <> [].
Proof. simpl. intros E. apply app_eq_nil in E as [_ E]. discriminate E. Qed.

(** Making directories changes nothing that was there: all it does is put
    directories where there was nothing. *)
Lemma mkdir_rev_frame (os : os_model) (rd : list pystr) :
  forall fs fs' r,
    mkdir_rev os rd fs = (fs', r) ->
    forall p, fs' !! p = fs !! p \/ (fs !! p = None /\ fs' !! p = Some Dir).
Proof.
  assert (Hmk : forall (fs0 fs : filesystem) (d : path) fs' r,
            (forall p, fs !! p = fs0 !! p \/
                       (fs0 !! p = None /\ fs !! p = Some Dir)) ->
            fs0 !! d = None ->
            make_dir os fs d = (fs', r) ->
            forall p, fs' !! p = fs0 !! p \/
                      (fs0 !! p = None /\ fs' !! p = Some Dir)).
  { intros fs0 fs d fs' r H Hd. unfold make_dir.
    destruct (os_denies os fs d); intros [= <- <-]; [exact H|].
    intros p. destruct (decide (p = d)) as [->|Hne].
    - right. split; [exact Hd | apply lookup_insert_eq].
    - rewrite lookup_insert_ne by congruence. apply H. }
  induction rd as [|c rparent IH]; intros fs fs' r.
  - simpl. intros [= <- <-] p. now left.
  - cbn [mkdir_rev]. set (d := rev (c :: rparent)).
    destruct (fs !! d) as [[]|] eqn:E;
      try (intros [= <- <-] p; now left).
    destruct (ancestor_file fs d); [intros [= <- <-] p; now left|].
    destruct (path_kind fs (rev rparent)) as [[]|];
      try (destruct (mkdir_rev os rparent fs) as [fs1 [[]|e]] eqn:Er;
           [apply (Hmk fs fs1); [apply (IH _ _ _ Er) | exact E]
           |intros [= <- <-]; apply (IH _ _ _ Er)]).
    apply (Hmk fs fs); [intros p; now left | exact E].
Qed.

Lemma mkdir_p_frame (os : os_model) (fs fs' : filesystem) (d : path)
    (r : outcome unit) :
  mkdir_p os fs d = (fs', r) ->
  forall p, fs' !! p = fs !! p \/ (fs !! p = None /\ fs' !! p = Some Dir).
Proof. apply mkdir_rev_frame. Qed.

Lemma mkdir_p_keeps (os : os_model) (fs fs' : filesystem) (d : path)
    (r : outcome unit) (p : path) (c : content) :
  mkdir_p os fs d = (fs', r) -> fs !! p = Some c -> fs' !! p = Some c.
Proof.
  intros H Hp. destruct (mkdir_p_frame os fs fs' d r H p) as [E|[E _]];
    congruence.
Qed.

(** Where the directory is already there, nothing is made. *)
Lemma mkdir_p_existing (os : os_model) (fs : filesystem) (d : path) :
  path_kind fs d = Some Dir -> mkdir_p os fs d = (fs, Returns tt).
Proof.
  unfold mkdir_p. intros H. destruct (rev d) as [|c rparent] eqn:E.
  - reflexivity.
  - cbn [mkdir_rev]. rewrite <- E, rev_involutive.
    destruct d as [|x d]; [discriminate E|]. simpl in H.
    unfold path in *. now rewrite H.
Qed.


(** ** ocr_image_to_txt *)

Section OcrImageToTxt.

Variable w : services.

(** The steps of a call that returns: the engine returned, the flattening
    ended within the recursion limit, the directory was there or was made,
    the text was built, the file opened and the text encoded. *)
Lemma ocr_image_to_txt_returns_inv
    (fs fs' : filesystem) (image_path out : path) (out_path : option path)
    (texts : list pystr) :
  ocr_image_to_txt w fs image_path out_path = (fs', Returns (out, texts)) ->
  exists result fs1 data,
    predict w fs (path_str image_path) = Returns result /\
    run_extract w result = Returns texts /\
    default_out_path image_path out_path = Returns out /\
    mkdir_p (system w) fs (parent out) = (fs1, Returns tt) /\
    text_to_write w result texts = Returns data /\
    open_error (system w) fs1 out = None /\
    utf8_encodable data = true /\
    fs' = <[out := Text data]> fs1.
Proof.
  unfold ocr_image_to_txt.
  destruct (path_kind fs image_path); [|intros H; discriminate H].
  destruct (predict w fs (path_str image_path)) as [result|] eqn:Ep;
    [|intros H; discriminate H].
  destruct (run_extract w result) as [texts'|] eqn:Ex;
    [|intros H; discriminate H].
  destruct (default_out_path image_path out_path) as [out'|] eqn:Ed;
    [|intros H; discriminate H].
  destruct (mkdir_p (system w) fs (parent out')) as [fs1 [[]|]] eqn:Em;
    [|intros H; discriminate H].
  destruct (text_to_write w result texts') as [data|] eqn:Et;
    [|intros H; discriminate H].
  unfold write_text.
  destruct (open_error (system w) fs1 out') eqn:Eo; [intros H; discriminate H|].
  destruct (utf8_encodable data) eqn:Eu; [|intros H; discriminate H].
  intros [= <- <- <-]. exists result, fs1, data. repeat split; assumption.
Qed.


(** Whatever the outcome of a call, every path other than the text file's
    is as it was, or is a directory made where there was nothing. *)
Lemma ocr_image_to_txt_frame
    (fs fs' : filesystem) (image_path : path) (out_path : option path)
    (r : outcome (path * list pystr)) (p : path) :
  ocr_image_to_txt w fs image_path out_path = (fs', r) ->
  (forall out, default_out_path image_path out_path = Returns out ->
               p <> out) ->
  fs' !! p = fs !! p \/ (fs !! p = None /\ fs' !! p = Some Dir).
Proof.
  unfold ocr_image_to_txt.
  destruct (path_kind fs image_path); [|intros [= <- <-]; now left].
  destruct (predict w fs (path_str image_path)) as [result|];
    [|intros [= <- <-]; now left].
  destruct (run_extract w result) as [texts|]; [|intros [= <- <-]; now left].
  destruct (default_out_path image_path out_path) as [out|];
    [|intros [= <- <-]; now left].
  destruct (mkdir_p (system w) fs (parent out)) as [fs1 [[]|]] eqn:Em;
    [|intros [= <- <-] _; apply (mkdir_p_frame _ _ _ _ _ Em)].
  pose proof (mkdir_p_frame _ _ _ _ _ Em p) as Hm.
  destruct (text_to_write w result texts) as [data|];
    [|intros [= <- <-] _; exact Hm].
  unfold write_text.
  destruct (open_error (system w) fs1 out); cbv iota beta;
    [intros [= <- <-] _; exact Hm|].
  destruct (utf8_encodable data); cbv iota beta; intros [= <- <-] Hne;
    specialize (Hne out eq_refl);
    (rewrite lookup_insert_ne by congruence); exact Hm.
Qed.

Lemma ocr_image_to_txt_keeps
    (fs fs' : filesystem) (image_path : path) (out_path : option path)
    (r : outcome (path * list pystr)) (p : path) (c : content) :
  ocr_image_to_txt w fs image_path out_path = (fs', r) ->
  (forall out, default_out_path image_path out_path = Returns out ->
               p <> out) ->
  fs !! p = Some c -> fs' !! p = Some c.
Proof.
  intros H Hne Hp.
  destruct (ocr_image_to_txt_frame _ _ _ _ _ p H Hne) as [E|[E _]];
    congruence.
Qed.

End OcrImageToTxt.




(** It fails as well when the engine returns a line that UTF-8 cannot
    encode: the call raises, and leaves an empty text file behind. *)
Example ocr_image_to_txt_surrogate_line :
  ocr_image_to_txt surrogate_services demo_fs demo_image None =
    (<[with_suffix demo_image (lit ".txt") := Text []]> demo_fs,
     Raises (Exn "UnicodeEncodeError" (lit "surrogates not allowed"))).
Proof. reflexivity. Qed.

(** And when the output path lies under a regular file: no directory can
    be made there. *)
Example ocr_image_to_txt_under_a_file :
  snd (ocr_image_to_txt demo_services demo_fs demo_image
         (Some (demo_image ++ [lit "out.txt"])))
  = Raises (os_error plain_os "FileExistsError" demo_image).
Proof. reflexivity. Qed.

(** ** The upload route *)

Section Upload.

Variable w : services.

Lemma pystr_eqb_false (a b : pystr) : a <> b -> pystr_eqb a b = false.
Proof. intros H. unfold pystr_eqb. now apply bool_decide_eq_false. Qed.

Lemma pystr_eqb_true (a b : pystr) : pystr_eqb a b = true -> a = b.
Proof. unfold pystr_eqb. apply bool_decide_eq_true_1. Qed.

(** Within the size cap and once the three checks have passed, the image
    is saved and then the OCR step decides the answer. *)
Lemma upload_file_checked (fs : filesystem) (n : N)
    (files : list (pystr * FileStorage)) (file : FileStorage) :
  (n <= MAX_CONTENT_LENGTH)%N ->
  files_get (lit "file") files = Some file ->
  filename file <> [] ->
  allowed_filename (secure_filename w (filename file)) = true ->
  upload_file w fs n files =
    let saved_path := saved_path_of w file in
    match file_save (system w) fs saved_path (stream file) with
    | (fs1, Raises e) => (fs1, Crash e)
    | (fs1, Returns _) =>
        match ocr_image_to_txt w fs1 saved_path None with
        | (fs2, Raises e) =>
            (fs2, Return (Response
                    (Json [("error"%string, JStr (lit "ocr_failed"));
                           ("detail"%string, JStr (exn_str e))]) 500))
        | (fs2, Returns (out_txt_path, texts)) =>
            let resp :=
              [("image"%string, JStr (path_str saved_path));
               ("txt_file"%string, JStr (path_str out_txt_path));
               ("text_lines_count"%string, JInt (Z.of_nat (length texts)));
               ("text_preview"%string, JStr (join NEWLINE (take 20 texts)))] in
            let resp :=
              match texts with
              | [] => resp ++ [("warning"%string, JStr WARNING)]
              | _ :: _ => resp
              end in
            (fs2, Return (Response (Json resp) 201))
        end
    end.
Proof.
  intros Hn Hf He Ha. unfold upload_file.
  apply N.ltb_ge in Hn. rewrite Hn, Hf, (pystr_eqb_false _ _ He), Ha.
  reflexivity.
Qed.

(** The name of the saved image is not empty, so its text path is the
    saved path with the suffix [.txt]. *)
Lemma saved_default_out (file : FileStorage) :
  allowed_filename (secure_filename w (filename file)) = true ->
  default_out_path (saved_path_of w file) None
  = Returns (with_suffix (saved_path_of w file) (lit ".txt")).
Proof.
  intros Ha. unfold default_out_path, saved_path_of.
  destruct (saved_path_suffix (IMAGES_DIR w) _ Ha) as (_ & Hn & _).
  destruct (path_suffix_split _ (allowed_suffix_nonempty _ Ha))
    as (stem & ext & Hname & Hs & _).
  rewrite pystr_eqb_false; [reflexivity|].
  rewrite Hn, Hname. destruct stem; [congruence|discriminate].
Qed.

Lemma parent_with_suffix (p : path) (sfx : pystr) :
  parent (with_suffix p sfx) = parent p.
Proof. unfold parent, with_suffix. apply removelast_last. Qed.

(** The image stays where it was saved, whatever the OCR step does. *)
Lemma saved_image_kept (fs1 fs2 : filesystem) (file : FileStorage)
    (r : outcome (path * list pystr)) (c : content) :
  allowed_filename (secure_filename w (filename file)) = true ->
  ocr_image_to_txt w fs1 (saved_path_of w file) None = (fs2, r) ->
  fs1 !! saved_path_of w file = Some c ->
  fs2 !! saved_path_of w file = Some c.
Proof.
  intros Ha Ho Hs. apply (ocr_image_to_txt_keeps w _ _ _ _ _ _ _ Ho); [|exact Hs].
  intros out. rewrite (saved_default_out file Ha). intros [= <-] E.
  symmetry in E. revert E. now apply txt_path_differs.
Qed.

(** After the image is saved its directory is there, and the OCR step
    makes no directory. *)
Lemma saved_parent_there (fs : filesystem) (file : FileStorage) (c : content) :
  open_error (system w) fs (saved_path_of w file) = None ->
  path_kind (<[saved_path_of w file := c]> fs)
            (parent (with_suffix (saved_path_of w file) (lit ".txt")))
  = Some Dir.
Proof.
  intros Ho. destruct (open_error_None _ _ _ Ho) as (Hne & _ & Hp & _).
  now rewrite parent_with_suffix, parent_kind_insert.
Qed.

Lemma file_save_ok (fs fs1 : filesystem) (p : path) (data : list N) :
  file_save (system w) fs p data = (fs1, Returns tt) ->
  open_error (system w) fs p = None /\ fs1 = <[p := Bytes data]> fs.
Proof.
  unfold file_save. destruct (open_error (system w) fs p);
    [intros H; discriminate H|]. now intros [= <-].
Qed.

(** An upload changes, besides the saved image, its text file at most. *)
Lemma upload_ocr_frame (fs fs1 fs2 : filesystem) (file : FileStorage)
    (r : outcome (path * list pystr)) (p : path) :
  allowed_filename (secure_filename w (filename file)) = true ->
  file_save (system w) fs (saved_path_of w file) (stream file)
    = (fs1, Returns tt) ->
  ocr_image_to_txt w fs1 (saved_path_of w file) None = (fs2, r) ->
  p <> saved_path_of w file ->
  p <> with_suffix (saved_path_of w file) (lit ".txt") ->
  fs2 !! p = fs !! p.
Proof.
  intros Ha Hs Ho H1 H2. apply file_save_ok in Hs as [Hopen ->].
  revert Ho. unfold ocr_image_to_txt.
  destruct (path_kind _ (saved_path_of w file));
    [|intros [= <- <-]; now rewrite lookup_insert_ne].
  destruct (predict w _ _) as [result|];
    [|intros [= <- <-]; now rewrite lookup_insert_ne].
  destruct (run_extract w result) as [texts|];
    [|intros [= <- <-]; now rewrite lookup_insert_ne].
  rewrite (saved_default_out file Ha).
  rewrite (mkdir_p_existing _ _ _ (saved_parent_there fs file _ Hopen)).
  clear Hopen.
  destruct (text_to_write w result texts) as [data|];
    [|intros [= <- <-]; now rewrite lookup_insert_ne].
  unfold write_text. destruct (open_error _ _ _); cbv iota beta;
    [intros [= <- <-]; now rewrite lookup_insert_ne|].
  destruct (utf8_encodable data); cbv iota beta; intros [= <- <-];
    rewrite !lookup_insert_ne by congruence; reflexivity.
Qed.

End Upload.

(** C3, as the code has it: an upload request within the size cap that has
    no [file] field, or whose file has an empty filename, or whose
    sanitized filename has a lowercased extension outside the allowed ones,
    is answered 400 with a JSON body that has an [error] key, and the file
    system is left as it was. *)
Theorem upload_rejects_bad_request
    (w : services) (fs : filesystem) (content_length : N)
    (files : list (pystr * FileStorage)) :
  (content_length <= MAX_CONTENT_LENGTH)%N ->
  (files_get (lit "file") files = None \/
   exists file,
     files_get (lit "file") files = Some file /\
     (filename file = [] \/
      lower (path_suffix (components (secure_filename w (filename file))))
        ∉ ALLOWED_EXTENSIONS)) ->
  exists d,
    handle w fs (POST_upload content_length files)
    = (fs, Response (Json d) 400) /\
    is_Some (jget "error" d).
Proof.
  intros Hn%N.ltb_ge [Hf|(file & Hf & Hbad)];
    unfold handle, upload_file; rewrite Hn, Hf.
  - eexists. split; [reflexivity|]. simpl. eauto.
  - destruct (pystr_eqb (filename file) []) eqn:He.
    + eexists. split; [reflexivity|]. simpl. eauto.
    + destruct Hbad as [E|Hs].
      * rewrite E in He. discriminate He.
      * unfold allowed_filename. rewrite (bool_decide_eq_false_2 _ Hs).
        eexists. split; [reflexivity|]. simpl. eauto.
Qed.

Lemma upload_rejects_bad_request_witness :
  exists d,
    handle demo_services demo_fs
      (POST_upload 2048
         [(lit "file", {| filename := lit "notes.txt"; stream := [] |})])
    = (demo_fs, Response (Json d) 400) /\
    is_Some (jget "error" d).
Proof.
  apply (upload_rejects_bad_request demo_services demo_fs 2048).
  - vm_compute. discriminate.
  - right. eexists. split; [reflexivity|]. right.
    intros H. apply (bool_decide_pack _) in H. vm_compute in H. exact H.
Defined.

(** C3 as stated fails for a request over the size cap: reading
    [request.files] is answered 413 with the framework's error page before
    any of the three checks, also when the request has no [file] field. *)
Lemma upload_over_the_cap_is_413 :
  files_get (lit "file") [] = None /\
  handle demo_services demo_fs (POST_upload (MAX_CONTENT_LENGTH + 1) [])
  = (demo_fs, Response (ErrorPage 413) 413) /\
  ~ json_error_body (ErrorPage 413).
Proof. repeat split. intros H. exact H. Qed.

(** C10: when an upload within the size cap passes the three checks, the
    image is saved and the OCR step then raises, the answer is 500 with a
    JSON body that has the keys [error] and [detail], and the image is
    still where it was saved. *)
Theorem upload_ocr_failure_keeps_image
    (w : services) (fs fs1 fs2 : filesystem) (content_length : N)
    (files : list (pystr * FileStorage)) (file : FileStorage) (e : exn) :
  (content_length <= MAX_CONTENT_LENGTH)%N ->
  files_get (lit "file") files = Some file ->
  filename file <> [] ->
  allowed_filename (secure_filename w (filename file)) = true ->
  let saved_path := saved_path_of w file in
  file_save (system w) fs saved_path (stream file) = (fs1, Returns tt) ->
  ocr_image_to_txt w fs1 saved_path None = (fs2, Raises e) ->
  exists d,
    handle w fs (POST_upload content_length files)
    = (fs2, Response (Json d) 500) /\
    jget "error" d = Some (JStr (lit "ocr_failed")) /\
    jget "detail" d = Some (JStr (exn_str e)) /\
    fs2 !! saved_path = Some (Bytes (stream file)).
Proof.
  intros Hn Hf He Ha saved_path Hs Ho. unfold handle.
  rewrite (upload_file_checked w fs _ files file Hn Hf He Ha). cbv zeta.
  fold saved_path. rewrite Hs, Ho.
  eexists. split; [reflexivity|]. repeat split.
  apply (saved_image_kept w fs1 fs2 file _ _ Ha Ho).
  apply file_save_ok in Hs as [_ ->]. apply lookup_insert_eq.
Qed.

Lemma upload_ocr_failure_keeps_image_witness :
  exists d,
    handle failing_services served_fs (POST_upload 2048 demo_upload)
    = (<[saved_path_of failing_services demo_file := Bytes [137%N; 80%N]]>
         served_fs,
       Response (Json d) 500) /\
    jget "error" d = Some (JStr (lit "ocr_failed")) /\
    jget "detail" d = Some (JStr (lit "cannot read image")) /\
    (<[saved_path_of failing_services demo_file := Bytes [137%N; 80%N]]>
       served_fs : filesystem)
      !! saved_path_of failing_services demo_file
    = Some (Bytes [137%N; 80%N]).
Proof.
  apply (upload_ocr_failure_keeps_image failing_services served_fs
           (<[saved_path_of failing_services demo_file
              := Bytes [137%N; 80%N]]> served_fs)
           (<[saved_path_of failing_services demo_file
              := Bytes [137%N; 80%N]]> served_fs)
           2048 demo_upload demo_file
           (Exn "RuntimeError" (lit "cannot read image"))).
  - vm_compute. discriminate.
  - reflexivity.
  - discriminate.
  - vm_compute. reflexivity.
  - reflexivity.
  - reflexivity.
Defined.

(** The OCR step also raises, with the same answer, when the engine has
    returned and the text cannot be written: the image is kept, and an
    empty text file is left beside it. *)
Example upload_surrogate_line :
  handle surrogate_services served_fs (POST_upload 2048 demo_upload)
  = (<[ [lit "srv"; lit "output"; lit "scan.txt"] := Text [] ]>
       (<[ [lit "srv"; lit "output"; lit "scan.PNG"]
           := Bytes [137%N; 80%N] ]> served_fs),
     Response (Json [("error"%string, JStr (lit "ocr_failed"));
                     ("detail"%string, JStr (lit "surrogates not allowed"))])
              500).
Proof. reflexivity. Qed.

(** C5: for every successful upload (within the size cap, the three checks
    passed, the image saved and the OCR step returned) the answer is 201
    with a JSON body that holds the saved image path, the path of the text
    file, [text_lines_count] equal to the length of the extracted list and
    [text_preview] equal to its first 20 lines joined by newlines; the body
    has a [warning] key when the list is empty.  The list is the flattening
    of what the engine returned, and the text file is the saved path with
    the suffix [.txt]. *)
Theorem upload_success_response
    (w : services) (fs fs1 fs2 : filesystem) (content_length : N)
    (files : list (pystr * FileStorage)) (file : FileStorage)
    (out : path) (texts : list pystr) :
  (content_length <= MAX_CONTENT_LENGTH)%N ->
  files_get (lit "file") files = Some file ->
  filename file <> [] ->
  allowed_filename (secure_filename w (filename file)) = true ->
  let saved_path := saved_path_of w file in
  file_save (system w) fs saved_path (stream file) = (fs1, Returns tt) ->
  ocr_image_to_txt w fs1 saved_path None = (fs2, Returns (out, texts)) ->
  (exists result,
     predict w fs1 (path_str saved_path) = Returns result /\
     texts = extract_texts_from_predict result) /\
  out = with_suffix saved_path (lit ".txt") /\
  exists d,
    handle w fs (POST_upload content_length files)
    = (fs2, Response (Json d) 201) /\
    jget "image" d = Some (JStr (path_str saved_path)) /\
    jget "txt_file" d = Some (JStr (path_str out)) /\
    jget "text_lines_count" d = Some (JInt (Z.of_nat (length texts))) /\
    jget "text_preview" d = Some (JStr (join NEWLINE (take 20 texts))) /\
    (is_Some (jget "warning" d) <-> texts = []).
Proof.
  intros Hn Hf He Ha saved_path Hs Ho.
  destruct (ocr_image_to_txt_returns_inv w _ _ _ _ _ _ Ho)
    as (result & fs1' & data & Hp & Hx & Hd & _).
  split; [exists result; split; [exact Hp|now apply (run_extract_returns w)]|].
  split.
  { unfold saved_path in Hd. rewrite (saved_default_out w file Ha) in Hd.
    now injection Hd as <-. }
  unfold handle.
  rewrite (upload_file_checked w fs _ files file Hn Hf He Ha). cbv zeta.
  fold saved_path. rewrite Hs, Ho.
  eexists. split; [reflexivity|].
  destruct texts; simpl; repeat split; eauto.
  - intros [v Hv]. discriminate Hv.
  - discriminate.
Qed.

Lemma upload_success_response_witness :
  exists d,
    handle demo_services served_fs (POST_upload 2048 demo_upload)
    = (<[ [lit "srv"; lit "output"; lit "scan.txt"] := Text (lit "Hello") ]>
         (<[ [lit "srv"; lit "output"; lit "scan.PNG"]
             := Bytes [137%N; 80%N] ]> served_fs),
       Response (Json d) 201) /\
    jget "text_lines_count" d = Some (JInt 1) /\
    jget "text_preview" d = Some (JStr (lit "Hello")).
Proof.
  destruct (upload_success_response demo_services served_fs
              (<[ [lit "srv"; lit "output"; lit "scan.PNG"]
                  := Bytes [137%N; 80%N] ]> served_fs)
              (<[ [lit "srv"; lit "output"; lit "scan.txt"]
                  := Text (lit "Hello") ]>
                 (<[ [lit "srv"; lit "output"; lit "scan.PNG"]
                     := Bytes [137%N; 80%N] ]> served_fs))
              2048 demo_upload demo_file
              [lit "srv"; lit "output"; lit "scan.txt"] [lit "Hello"])
    as (_ & _ & d & H & _ & _ & Hc & Hv & _).
  - vm_compute. discriminate.
  - reflexivity.
  - discriminate.
  - vm_compute. reflexivity.
  - reflexivity.
  - reflexivity.
  - exists d. split; [exact H|]. split; [exact Hc | exact Hv].
Defined.

(** When the engine finds nothing the answer is still 201, with the
    warning. *)
Example upload_blank_image_warns :
  let r := snd (handle blank_services served_fs (POST_upload 2048 demo_upload)) in
  status r = 201%nat /\
  json_warning (payload r) = Some (JStr WARNING).
Proof. vm_compute. split; reflexivity. Qed.

(** A 201 answer is given only to an upload within the size cap that
    passed the three checks, whose image was saved and whose OCR step
    returned. *)
Lemma upload_201_only_on_success
    (w : services) (fs : filesystem) (content_length : N)
    (files : list (pystr * FileStorage)) :
  status (snd (handle w fs (POST_upload content_length files))) = 201%nat ->
  (content_length <= MAX_CONTENT_LENGTH)%N /\
  exists file fs1 out texts,
    files_get (lit "file") files = Some file /\
    filename file <> [] /\
    allowed_filename (secure_filename w (filename file)) = true /\
    file_save (system w) fs (saved_path_of w file) (stream file)
      = (fs1, Returns tt) /\
    ocr_image_to_txt w fs1 (saved_path_of w file) None
      = (fst (handle w fs (POST_upload content_length files)),
         Returns (out, texts)).
Proof.
  unfold handle, upload_file.
  destruct (MAX_CONTENT_LENGTH <? content_length)%N eqn:Hn;
    [intros H; discriminate H|].
  apply N.ltb_ge in Hn.
  destruct (files_get (lit "file") files) as [file|];
    [|intros H; discriminate H].
  destruct (pystr_eqb (filename file) []) eqn:He; [intros H; discriminate H|].
  destruct (allowed_filename _) eqn:Ha; [|intros H; discriminate H].
  simpl negb. cbv iota. fold (saved_path_of w file).
  destruct (file_save _ _ _ _) as [fs1 [[]|e]] eqn:Hs;
    [|intros H; discriminate H].
  destruct (ocr_image_to_txt w fs1 _ None) as [fs2 [[out texts]|e]] eqn:Ho;
    [|intros H; discriminate H].
  intros _. split; [exact Hn|]. exists file, fs1, out, texts.
  repeat split; auto.
  intros E. rewrite E in He. discriminate He.
Qed.

(** ** The request boundary *)



(** An upload that cannot be saved is answered 500 by the framework, with
    its error page. *)
Example upload_to_a_readonly_disk :
  handle readonly_services served_fs (POST_upload 2048 demo_upload)
  = (served_fs, Response (ErrorPage 500) 500).
Proof. reflexivity. Qed.

(** So is the download of a file that cannot be read. *)
Example download_unreadable_file :
  handle sealed_services demo_fs (GET_download (lit "scan.png"))
  = (demo_fs, Response (ErrorPage 500) 500).
Proof. reflexivity. Qed.

(** ** The batch script *)



Section Batch.

Context {image : Type} (w : batch_env image).

(** Entries that are not image names are passed over. *)
Lemma batch_loop_filter (entries : list pystr) (written : pystr) :
  batch_loop w entries written
  = batch_loop w (List.filter is_image_name entries) written.
Proof.
  revert written. induction entries as [|x entries IH]; intros written;
    cbn [batch_loop List.filter]; [reflexivity|].
  destruct (is_image_name x) eqn:E; cbn [batch_loop]; [|apply IH].
  rewrite E. destruct (Image_open w _); [|reflexivity].
  destruct (image_to_string w _); [|reflexivity].
  destruct (utf8_encodable (header_line x)); [|reflexivity].
  destruct (utf8_encodable (text_lines _)); [|reflexivity].
  apply IH.
Qed.



(** The loop asks its environment for the images only, not for the
    listing. *)
Lemma batch_loop_with_listing (listing entries : list pystr) (written : pystr) :
  batch_loop (with_listing w listing) entries written
  = batch_loop w entries written.
Proof.
  revert written. induction entries as [|x entries IH]; intros written;
    cbn [batch_loop]; [reflexivity|].
  change (Image_open (with_listing w listing)) with (Image_open w).
  change (image_to_string (with_listing w listing))
    with (image_to_string w).
  change (batch_system (with_listing w listing)) with (batch_system w).
  destruct (is_image_name x); [|apply IH].
  destruct (Image_open w _); [|reflexivity].
  destruct (image_to_string w _); [|reflexivity].
  destruct (utf8_encodable (header_line x)); [|reflexivity].
  destruct (utf8_encodable (text_lines _)); [|reflexivity].
  apply IH.
Qed.

(** A run in which the output file cannot be opened writes nothing; every
    other run leaves the output file behind, emptied and then holding what
    the loop wrote, and changes no other file. *)
Lemma main_script_one_file fs :
  (exists e,
     open_error (batch_system w) fs output_file = Some e /\
     main_script w fs = (fs, Raises e)) \/
  (open_error (batch_system w) fs output_file = None /\
   exists written r,
     main_script w fs = (<[output_file := Text written]> fs, r)).
Proof.
  unfold main_script.
  destruct (open_error _ _ _) as [e|]; [left; eauto|right].
  split; [reflexivity|].
  destruct (listdir w) as [entries|e]; [|eauto].
  destruct (batch_loop w entries []) as [written [[]|e]]; [|eauto].
  destruct (print_error w); eauto.
Qed.

End Batch.




(** A name with a lone surrogate, as [os.listdir] gives for a file name
    that is not valid UTF-8, stops the run at the header line: what was
    written before stays, the entry's text is not written. *)
Example batch_stops_at_surrogate_name :
  let bad := lit "a" ++ [56448%N] ++ lit ".png" in
  let w := with_listing demo_batch [lit "a.PNG"; bad; lit "b.jpeg"] in
  is_image_name bad = true /\
  fst (main_script w ∅)
  = <[output_file :=
        Text (block (lit "a.PNG") (lit "text of content/a.PNG"))]> ∅ /\
  snd (main_script w ∅)
  = Raises (encode_error plain_os (header_line bad)).
Proof. repeat split; reflexivity. Qed.

(** * Further properties *)

(** ** The flattening, shape by shape *)

Lemma flat_map_extract_rec (items : list pyval) :
  flat_map (fun c => rec c []) items
  = flat_map extract_texts_from_predict items.
Proof.
  induction items as [|x items IH]; simpl; [reflexivity|].
  now rewrite IH, extract_is_rec.
Qed.

(** What is extracted from a value: the strings the activation appends
    itself, then what is extracted from each value it calls itself on. *)
Lemma extract_flat obj :
  extract_texts_from_predict obj =
  rec_appends obj ++ flat_map extract_texts_from_predict (rec_calls obj).
Proof. now rewrite extract_is_rec, rec_flat, flat_map_extract_rec. Qed.

(** X1: a dict contributes what its values contribute, one value after the
    other in insertion order; its keys contribute nothing. *)
Theorem extract_dict_values_in_order (kvs : list (pystr * pyval)) :
  extract_texts_from_predict (PDict kvs)
  = flat_map (fun kv => extract_texts_from_predict (snd kv)) kvs.
Proof. rewrite extract_flat. simpl. apply flat_map_values. Qed.

(** X2: when the second element of a list or tuple is a list or tuple that
    does not begin with a string, the items of that second element are the
    only thing walked: the first element and every element after the second
    contribute nothing. *)
Theorem second_sequence_walked_alone (x : pyval) (sec rest : list pyval) :
  head_is_str sec = false ->
  extract_texts_from_predict (PList (x :: PList sec :: rest))
    = flat_map extract_texts_from_predict sec /\
  extract_texts_from_predict (PList (x :: PTuple sec :: rest))
    = flat_map extract_texts_from_predict sec /\
  extract_texts_from_predict (PTuple (x :: PList sec :: rest))
    = flat_map extract_texts_from_predict sec /\
  extract_texts_from_predict (PTuple (x :: PTuple sec :: rest))
    = flat_map extract_texts_from_predict sec.
Proof.
  intros Hs. rewrite !extract_flat.
  repeat split;
    (destruct x, rest, sec as [|[] tl]; try discriminate Hs; reflexivity).
Qed.

Lemma second_sequence_walked_alone_witness :
  extract_texts_from_predict
    (PList [PList [PList [PInt 0; PInt 0]; PTuple [PStr (lit "first"); PFloat 0.5]];
            PList [PList [PInt 0; PInt 9]; PTuple [PStr (lit "second"); PFloat 0.5]];
            PList [PList [PInt 0; PInt 18]; PTuple [PStr (lit "third"); PFloat 0.5]]])
  = [lit "second"].
Proof.
  apply (second_sequence_walked_alone
           (PList [PList [PInt 0; PInt 0];
                   PTuple [PStr (lit "first"); PFloat 0.5]])
           [PList [PInt 0; PInt 9]; PTuple [PStr (lit "second"); PFloat 0.5]]
           [PList [PList [PInt 0; PInt 18];
                   PTuple [PStr (lit "third"); PFloat 0.5]]]
           eq_refl).
Defined.

(** In the fallback the activation appends nothing and calls itself on
    every item. *)
Lemma fallback_calls (items : list pyval) :
  text_conf items = None ->
  second_is_seq items = false ->
  rec_appends (PList items) = [] /\ rec_calls (PList items) = items /\
  rec_appends (PTuple items) = [] /\ rec_calls (PTuple items) = items.
Proof.
  intros Hp Hs. simpl. rewrite Hp.
  destruct items as [|x [|y rest]]; try (repeat split; reflexivity).
  destruct y; try discriminate Hs; repeat split; reflexivity.
Qed.

(** X3: a list or tuple that is not a (text, confidence) pair and whose
    second element, if any, is neither a list nor a tuple contributes what
    its items contribute, one after the other. *)
Theorem extract_walks_every_item (items : list pyval) :
  text_conf items = None ->
  second_is_seq items = false ->
  extract_texts_from_predict (PList items)
    = flat_map extract_texts_from_predict items /\
  extract_texts_from_predict (PTuple items)
    = flat_map extract_texts_from_predict items.
Proof.
  intros Hp Hs. rewrite !extract_flat.
  now destruct (fallback_calls items Hp Hs) as (-> & -> & -> & ->).
Qed.

Lemma extract_walks_every_item_witness :
  extract_texts_from_predict
    (PList [PStr (lit "a"); PInt 7; PDict [(lit "k", PStr (lit " b "))]])
  = [lit "a"; lit "b"].
Proof.
  apply (extract_walks_every_item
           [PStr (lit "a"); PInt 7; PDict [(lit "k", PStr (lit " b "))]]
           eq_refl eq_refl).
Defined.

Lemma text_conf_strings (ss : list pystr) : text_conf (map PStr ss) = None.
Proof. destruct ss as [|a [|b [|c ss]]]; reflexivity. Qed.

Lemma second_is_seq_strings (ss : list pystr) :
  second_is_seq (map PStr ss) = false.
Proof. destruct ss as [|a [|b ss]]; reflexivity. Qed.

(** X4: from a list of strings of any length, two included, every string
    is kept: the result is the strings trimmed, in order, without the ones
    that trim to nothing. *)
Theorem extract_list_of_strings (ss : list pystr) :
  extract_texts_from_predict (PList (map PStr ss))
  = List.filter truthy (map strip ss).
Proof.
  rewrite extract_flat.
  destruct (fallback_calls _ (text_conf_strings ss) (second_is_seq_strings ss))
    as (-> & -> & _). simpl app.
  induction ss as [|s ss IH]; simpl; [reflexivity|].
  rewrite IH, extract_flat. simpl. rewrite app_nil_r.
  unfold append_text. destruct (truthy (strip s)); reflexivity.
Qed.


(** ** Allowed file names *)

(** X5: an allowed file name has, in its last component, a non-empty stem,
    then a dot, then a non-empty extension without a dot that is one of
    the allowed ones once lowercased.  So a name without a dot, a name that
    is only an extension ([.png]) and a name that ends in a dot are not
    allowed. *)
Theorem allowed_filename_shape (filename : pystr) :
  allowed_filename filename = true ->
  exists stem ext,
    path_name (components filename) = stem ++ DOT :: ext /\
    stem <> [] /\ ext <> [] /\ ~ In DOT ext /\
    lower (DOT :: ext) ∈ ALLOWED_EXTENSIONS.
Proof.
  intros H.
  destruct (path_suffix_split _ (allowed_suffix_nonempty _ H))
    as (stem & ext & Hn & Hs & He & Hd & Hsfx).
  exists stem, ext. repeat split; auto.
  rewrite <- Hsfx. now apply allowed_suffix.
Qed.

Lemma allowed_filename_shape_witness :
  exists stem ext,
    path_name (components (lit "uploads/scan.v2.JPEG")) = stem ++ DOT :: ext /\
    stem <> [] /\ ext <> [] /\ ~ In DOT ext /\
    lower (DOT :: ext) ∈ ALLOWED_EXTENSIONS.
Proof.
  apply (allowed_filename_shape (lit "uploads/scan.v2.JPEG")).
  vm_compute. reflexivity.
Defined.

(** Names the shape excludes. *)
Example rejected_names :
  allowed_filename (lit "README") = false /\
  allowed_filename (lit ".png") = false /\
  allowed_filename (lit "scan.png.") = false /\
  allowed_filename (lit "scan.txt") = false /\
  allowed_filename (lit "") = false.
Proof. vm_compute. repeat split. Qed.

(** ** ocr_image_to_txt: failures and effect *)


Example ocr_image_to_txt_missing_image :
  ocr_image_to_txt demo_services served_fs demo_image None
  = (served_fs,
     Raises (Exn "FileNotFoundError"
                 (lit "Image not found: /srv/output/scan.png"))).
Proof. reflexivity. Qed.

(** X7: a call that returns has written the path it returns; every other
    path is as it was, or is a directory made on the way to the text file.
    What it wrote is never the empty text, and the list it returns is what
    the flattening gives for the result of the engine. *)
Theorem ocr_image_to_txt_effect
    (w : services) (fs fs' : filesystem) (image_path out : path)
    (out_path : option path) (texts : list pystr) :
  ocr_image_to_txt w fs image_path out_path = (fs', Returns (out, texts)) ->
  out = default (with_suffix image_path (lit ".txt")) out_path /\
  (exists c, fs' !! out = Some (Text c) /\ c <> []) /\
  (forall p, p <> out ->
     fs' !! p = fs !! p \/ (fs !! p = None /\ fs' !! p = Some Dir)) /\
  exists result,
    predict w fs (path_str image_path) = Returns result /\
    texts = extract_texts_from_predict result.
Proof.
  intros H.
  destruct (ocr_image_to_txt_returns_inv w _ _ _ _ _ _ H)
    as (result & fs1 & data & Hp & Hx & Hd & Hm & Ht & _ & _ & ->).
  pose proof (run_extract_returns w _ _ Hx) as Hex.
  split; [|split; [|split]].
  - unfold default_out_path in Hd. destruct out_path as [p|]; simpl.
    + now injection Hd as <-.
    + destruct (pystr_eqb (path_name image_path) []);
        [discriminate Hd | now injection Hd as <-].
  - exists data. split; [apply lookup_insert_eq|].
    destruct texts as [|t ts]; cbn [text_to_write] in Ht.
    + destruct (json_dumps w result); [|discriminate Ht].
      injection Ht as <-. discriminate.
    + injection Ht as <-. apply (join_nonempty NEWLINE t ts).
      now apply (extract_head_nonempty result t ts).
  - intros p Hne. rewrite lookup_insert_ne by congruence.
    apply (mkdir_p_frame _ _ _ _ _ Hm).
  - now exists result.
Qed.

Lemma ocr_image_to_txt_effect_witness :
  exists c,
    (<[with_suffix demo_image (lit ".txt") := Text (lit "Hello")]> demo_fs
       : filesystem)
      !! with_suffix demo_image (lit ".txt") = Some (Text c) /\ c <> [].
Proof.
  apply (ocr_image_to_txt_effect demo_services demo_fs _ demo_image
           (with_suffix demo_image (lit ".txt")) None [lit "Hello"]).
  vm_compute. reflexivity.
Defined.

(** ** The upload route: what is on disk afterwards *)

Section UploadEffect.

Variable w : services.

(** The file system an accepted upload leaves behind is the one the OCR
    step leaves behind. *)
Lemma upload_file_system (fs fs1 fs2 : filesystem) (n : N)
    (files : list (pystr * FileStorage)) (file : FileStorage)
    (r : outcome (path * list pystr)) :
  (n <= MAX_CONTENT_LENGTH)%N ->
  files_get (lit "file") files = Some file ->
  filename file <> [] ->
  allowed_filename (secure_filename w (filename file)) = true ->
  file_save (system w) fs (saved_path_of w file) (stream file)
    = (fs1, Returns tt) ->
  ocr_image_to_txt w fs1 (saved_path_of w file) None = (fs2, r) ->
  fst (handle w fs (POST_upload n files)) = fs2.
Proof.
  intros Hn Hf He Ha Hs Ho. unfold handle.
  rewrite (upload_file_checked w fs _ files file Hn Hf He Ha). cbv zeta.
  rewrite Hs, Ho. now destruct r as [[out texts]|e].
Qed.

(** What a returning OCR step has put in its text file. *)
Lemma ocr_text_file (fs1 fs2 : filesystem) (image_path out : path)
    (texts : list pystr) :
  ocr_image_to_txt w fs1 image_path None = (fs2, Returns (out, texts)) ->
  exists result data,
    predict w fs1 (path_str image_path) = Returns result /\
    texts = extract_texts_from_predict result /\
    text_to_write w result texts = Returns data /\
    fs2 !! out = Some (Text data).
Proof.
  intros H.
  destruct (ocr_image_to_txt_returns_inv w _ _ _ _ _ _ H)
    as (result & fs1' & data & Hp & Hx & _ & _ & Ht & _ & _ & ->).
  exists result, data. split; [exact Hp|].
  split; [now apply (run_extract_returns w)|]. split; [exact Ht|].
  apply lookup_insert_eq.
Qed.

(** A name that sanitizes to no component resolves to the output
    directory itself or to the root. *)
Lemma path_div_no_component (base : path) (s : pystr) :
  components s = [] -> path_div base s = base \/ path_div base s = [].
Proof.
  intros E. unfold path_div. destruct s as [|c s]; [now left|].
  rewrite E, app_nil_r. destruct (c =? SLASH)%N; auto.
Qed.

(** So a name that resolves to a path whose last component is not
    [output] has a component. *)
Lemma download_name_components (name : pystr) (target : path) :
  path_div (IMAGES_DIR w) (secure_filename w name) = target ->
  target <> [] ->
  path_name target <> lit "output" ->
  components (secure_filename w name) <> [].
Proof.
  intros Ht Hne Hn E.
  destruct (path_div_no_component (IMAGES_DIR w) _ E) as [H|H];
    rewrite H in Ht; subst target.
  - apply Hn. unfold IMAGES_DIR, path_name. apply last_last.
  - now apply Hne.
Qed.

(** The download route serves the regular file a name resolves to. *)
Lemma download_serves (fs : filesystem) (name : pystr) (c : content) :
  components (secure_filename w name) <> [] ->
  fs !! path_div (IMAGES_DIR w) (secure_filename w name) = Some c ->
  c <> Dir ->
  os_denies_read (system w) fs
    (path_div (IMAGES_DIR w) (secure_filename w name)) = None ->
  download w fs name
  = Return (Response (Attachment (secure_filename w name) c) 200).
Proof.
  intros Hc Hl Hd Hr. unfold download.
  assert (Hk : path_kind fs (path_div (IMAGES_DIR w) (secure_filename w name))
               = Some c).
  { destruct (path_div_components (IMAGES_DIR w) (secure_filename w name))
      as [pre Hp].
    destruct (path_div (IMAGES_DIR w) (secure_filename w name)) eqn:E;
      [|exact Hl].
    symmetry in Hp. apply app_eq_nil in Hp as [_ Hp]. congruence. }
  rewrite Hk, Hr.
  destruct (components (secure_filename w name)); [congruence|].
  destruct c; congruence.
Qed.

(** The name of a saved image, and of its text file, is not [output]. *)
Lemma saved_name_not_output (file : FileStorage) :
  allowed_filename (secure_filename w (filename file)) = true ->
  path_name (saved_path_of w file) <> lit "output".
Proof.
  intros Ha E.
  destruct (saved_path_suffix (IMAGES_DIR w) _ Ha) as (_ & _ & Hs).
  apply (allowed_suffix_nonempty _ Ha). rewrite <- Hs.
  unfold path_suffix. fold (saved_path_of w file). now rewrite E.
Qed.

Lemma txt_name_not_output (p : path) :
  path_name (with_suffix p (lit ".txt")) <> lit "output".
Proof.
  unfold with_suffix, path_name. rewrite last_last. intros E.
  apply (f_equal (@rev N)) in E. rewrite rev_app_distr in E.
  simpl in E. discriminate E.
Qed.

Lemma with_suffix_nonempty (p : path) (sfx : pystr) : with_suffix p sfx <> [].
Proof.
  unfold with_suffix. intros E. apply app_eq_nil in E as [_ E].
  discriminate E.
Qed.

End UploadEffect.

(** X8: after an upload within the size cap that passes the three checks,
    whose image is saved and whose OCR step returns, both files are there:
    the image under the saved path, with the uploaded bytes, and the text
    under the same path with the suffix [.txt]; the two paths differ, so
    the text never replaces the image. *)
Theorem upload_success_keeps_both_files
    (w : services) (fs fs1 fs2 : filesystem) (content_length : N)
    (files : list (pystr * FileStorage)) (file : FileStorage)
    (out : path) (texts : list pystr) :
  (content_length <= MAX_CONTENT_LENGTH)%N ->
  files_get (lit "file") files = Some file ->
  filename file <> [] ->
  allowed_filename (secure_filename w (filename file)) = true ->
  let saved_path := saved_path_of w file in
  file_save (system w) fs saved_path (stream file) = (fs1, Returns tt) ->
  ocr_image_to_txt w fs1 saved_path None = (fs2, Returns (out, texts)) ->
  let fs' := fst (handle w fs (POST_upload content_length files)) in
  out = with_suffix saved_path (lit ".txt") /\
  out <> saved_path /\
  fs' !! saved_path = Some (Bytes (stream file)) /\
  exists result data,
    predict w fs1 (path_str saved_path) = Returns result /\
    text_to_write w result texts = Returns data /\
    fs' !! out = Some (Text data).
Proof.
  intros Hn Hf He Ha saved_path Hs Ho fs'.
  assert (Hfs : fs' = fs2)
    by exact (upload_file_system w fs fs1 fs2 _ files file _ Hn Hf He Ha Hs Ho).
  rewrite Hfs.
  assert (Hout : out = with_suffix saved_path (lit ".txt")).
  { destruct (ocr_image_to_txt_returns_inv w _ _ _ _ _ _ Ho)
      as (_ & _ & _ & _ & _ & Hd & _).
    unfold saved_path in Hd. rewrite (saved_default_out w file Ha) in Hd.
    now injection Hd as <-. }
  split; [exact Hout|]. split.
  { rewrite Hout. now apply txt_path_differs. }
  split.
  - apply (saved_image_kept w fs1 fs2 file _ _ Ha Ho).
    apply (file_save_ok w) in Hs as [_ ->]. apply lookup_insert_eq.
  - destruct (ocr_text_file w _ _ _ _ _ Ho) as (result & data & Hp & _ & Ht & Hl).
    now exists result, data.
Qed.

Lemma upload_success_keeps_both_files_witness :
  let fs' := fst (handle demo_services served_fs
                    (POST_upload 2048 demo_upload)) in
  fs' !! [lit "srv"; lit "output"; lit "scan.PNG"]
    = Some (Bytes [137%N; 80%N]) /\
  exists data,
    text_to_write demo_services demo_result [lit "Hello"] = Returns data /\
    fs' !! [lit "srv"; lit "output"; lit "scan.txt"] = Some (Text data).
Proof.
  destruct (upload_success_keeps_both_files demo_services served_fs
              (<[ [lit "srv"; lit "output"; lit "scan.PNG"]
                  := Bytes [137%N; 80%N] ]> served_fs)
              (<[ [lit "srv"; lit "output"; lit "scan.txt"]
                  := Text (lit "Hello") ]>
                 (<[ [lit "srv"; lit "output"; lit "scan.PNG"]
                     := Bytes [137%N; 80%N] ]> served_fs))
              2048 demo_upload demo_file
              [lit "srv"; lit "output"; lit "scan.txt"] [lit "Hello"])
    as (_ & _ & Himg & result & data & Hp & Ht & Hl).
  - vm_compute. discriminate.
  - reflexivity.
  - discriminate.
  - vm_compute. reflexivity.
  - reflexivity.
  - reflexivity.
  - split; [exact Himg|]. exists data. split; [|exact Hl].
    injection Hp as <-. exact Ht.
Defined.

(** X9: a request changes nothing on disk, or it is an upload with a [file]
    field and changes at most two paths: the saved image and its text
    file. *)
Theorem handle_touches_only_upload_paths
    (w : services) (fs : filesystem) (req : request) :
  fst (handle w fs req) = fs \/
  exists n files file,
    req = POST_upload n files /\
    files_get (lit "file") files = Some file /\
    forall p,
      p <> saved_path_of w file ->
      p <> with_suffix (saved_path_of w file) (lit ".txt") ->
      fst (handle w fs req) !! p = fs !! p.
Proof.
  destruct req as [|n files|name]; try (left; reflexivity).
  destruct (MAX_CONTENT_LENGTH <? n)%N eqn:Hn;
    [left; simpl; unfold upload_file; now rewrite Hn|].
  destruct (files_get (lit "file") files) as [file|] eqn:Hf;
    [|left; simpl; unfold upload_file; now rewrite Hn, Hf].
  destruct (pystr_eqb (filename file) []) eqn:He;
    [left; simpl; unfold upload_file; now rewrite Hn, Hf, He|].
  destruct (allowed_filename (secure_filename w (filename file))) eqn:Ha;
    [|left; simpl; unfold upload_file; now rewrite Hn, Hf, He, Ha].
  assert (Hne : filename file <> []).
  { intros E. rewrite E in He. discriminate He. }
  apply N.ltb_ge in Hn.
  destruct (file_save (system w) fs (saved_path_of w file) (stream file))
    as [fs1 [[]|e]] eqn:Hs.
  - right. exists n, files, file. split; [reflexivity|]. split; [exact Hf|].
    intros p H1 H2.
    destruct (ocr_image_to_txt w fs1 (saved_path_of w file) None)
      as [fs2 r] eqn:Ho.
    rewrite (upload_file_system w fs fs1 fs2 n files file r Hn Hf Hne Ha Hs Ho).
    exact (upload_ocr_frame w fs fs1 fs2 file r p Ha Hs Ho H1 H2).
  - left. unfold handle.
    rewrite (upload_file_checked w fs n files file Hn Hf Hne Ha). cbv zeta.
    rewrite Hs. simpl. revert Hs. unfold file_save.
    destruct (open_error _ _ _); [now intros [= <- _]|intros X; discriminate X].
Qed.

(** ** Upload, then download *)

(** X10: after an upload within the size cap that passes the three checks,
    whose image is saved and whose OCR step returns, downloading a name
    that resolves to the reported text path, when that file can be read, is
    answered 200 with exactly the text that was written: the extracted
    lines joined by newlines, or the debug dump when there was no line. *)
Theorem download_after_upload_returns_text
    (w : services) (fs fs1 fs2 : filesystem) (content_length : N)
    (files : list (pystr * FileStorage)) (file : FileStorage)
    (out : path) (texts : list pystr) (name : pystr) :
  (content_length <= MAX_CONTENT_LENGTH)%N ->
  files_get (lit "file") files = Some file ->
  filename file <> [] ->
  allowed_filename (secure_filename w (filename file)) = true ->
  file_save (system w) fs (saved_path_of w file) (stream file)
    = (fs1, Returns tt) ->
  ocr_image_to_txt w fs1 (saved_path_of w file) None
    = (fs2, Returns (out, texts)) ->
  path_div (IMAGES_DIR w) (secure_filename w name) = out ->
  os_denies_read (system w) fs2 out = None ->
  let fs' := fst (handle w fs (POST_upload content_length files)) in
  exists result data,
    predict w fs1 (path_str (saved_path_of w file)) = Returns result /\
    text_to_write w result texts = Returns data /\
    (texts <> [] -> data = join NEWLINE texts) /\
    (texts = [] ->
     exists dump,
       json_dumps w result = Returns dump /\ data = DEBUG_HEADER ++ dump) /\
    handle w fs' (GET_download name) =
      (fs', Response (Attachment (secure_filename w name) (Text data)) 200).
Proof.
  intros Hn Hf He Ha Hs Ho Hname Hr fs'.
  assert (Hfs : fs' = fs2)
    by exact (upload_file_system w fs fs1 fs2 _ files file _ Hn Hf He Ha Hs Ho).
  rewrite Hfs. clear Hfs fs'.
  assert (Hout : out = with_suffix (saved_path_of w file) (lit ".txt")).
  { destruct (ocr_image_to_txt_returns_inv w _ _ _ _ _ _ Ho)
      as (_ & _ & _ & _ & _ & Hd & _).
    rewrite (saved_default_out w file Ha) in Hd. now injection Hd as <-. }
  destruct (ocr_text_file w _ _ _ _ _ Ho) as (result & data & Hp & _ & Ht & Hl).
  exists result, data. split; [exact Hp|]. split; [exact Ht|].
  split; [|split].
  - intros Hne. destruct texts as [|t ts]; [congruence|].
    cbn [text_to_write] in Ht. now injection Ht as <-.
  - intros ->. cbn [text_to_write] in Ht.
    destruct (json_dumps w result) as [dump|]; [|discriminate Ht].
    injection Ht as <-. now exists dump.
  - cbn [handle]. rewrite (download_serves w fs2 name (Text data)).
    + reflexivity.
    + apply (download_name_components w name out Hname).
      * rewrite Hout. apply with_suffix_nonempty.
      * rewrite Hout. apply txt_name_not_output.
    + now rewrite Hname.
    + discriminate.
    + now rewrite Hname.
Qed.

Lemma download_after_upload_returns_text_witness :
  let fs' := fst (handle demo_services served_fs
                    (POST_upload 2048 demo_upload)) in
  handle demo_services fs' (GET_download (lit "scan.txt")) =
    (fs', Response (Attachment (lit "scan.txt") (Text (lit "Hello"))) 200).
Proof.
  destruct (download_after_upload_returns_text demo_services served_fs
              (<[ [lit "srv"; lit "output"; lit "scan.PNG"]
                  := Bytes [137%N; 80%N] ]> served_fs)
              (<[ [lit "srv"; lit "output"; lit "scan.txt"]
                  := Text (lit "Hello") ]>
                 (<[ [lit "srv"; lit "output"; lit "scan.PNG"]
                     := Bytes [137%N; 80%N] ]> served_fs))
              2048 demo_upload demo_file
              [lit "srv"; lit "output"; lit "scan.txt"] [lit "Hello"]
              (lit "scan.txt"))
    as (result & data & _ & _ & Hd & _ & H).
  - vm_compute. discriminate.
  - reflexivity.
  - discriminate.
  - vm_compute. reflexivity.
  - reflexivity.
  - reflexivity.
  - reflexivity.
  - reflexivity.
  - rewrite (Hd ltac:(discriminate)) in H. exact H.
Defined.

(** X11: after an upload within the size cap that passes the three checks
    and whose image is saved, whether the OCR step then returns or raises,
    downloading a name that resolves to the saved path, when that file can
    be read, is answered 200 with the uploaded bytes: the download route
    serves the images as well as the text files. *)
Theorem download_after_upload_returns_image
    (w : services) (fs fs1 : filesystem) (content_length : N)
    (files : list (pystr * FileStorage)) (file : FileStorage)
    (name : pystr) :
  (content_length <= MAX_CONTENT_LENGTH)%N ->
  files_get (lit "file") files = Some file ->
  filename file <> [] ->
  allowed_filename (secure_filename w (filename file)) = true ->
  file_save (system w) fs (saved_path_of w file) (stream file)
    = (fs1, Returns tt) ->
  path_div (IMAGES_DIR w) (secure_filename w name) = saved_path_of w file ->
  let fs' := fst (handle w fs (POST_upload content_length files)) in
  os_denies_read (system w) fs' (saved_path_of w file) = None ->
  handle w fs' (GET_download name) =
    (fs', Response (Attachment (secure_filename w name)
                               (Bytes (stream file))) 200).
Proof.
  intros Hn Hf He Ha Hs Hname fs'.
  destruct (ocr_image_to_txt w fs1 (saved_path_of w file) None)
    as [fs2 r] eqn:Ho.
  assert (Hfs : fs' = fs2)
    by exact (upload_file_system w fs fs1 fs2 _ files file _ Hn Hf He Ha Hs Ho).
  rewrite Hfs. clear Hfs fs'. intros Hr.
  assert (Hsaved : fs2 !! saved_path_of w file = Some (Bytes (stream file))).
  { apply (saved_image_kept w fs1 fs2 file _ _ Ha Ho).
    apply (file_save_ok w) in Hs as [_ ->]. apply lookup_insert_eq. }
  cbn [handle]. rewrite (download_serves w fs2 name (Bytes (stream file))).
  - reflexivity.
  - apply (download_name_components w name _ Hname).
    + apply (saved_path_suffix (IMAGES_DIR w) _ Ha).
    + now apply saved_name_not_output.
  - now rewrite Hname.
  - discriminate.
  - now rewrite Hname.
Qed.

Lemma download_after_upload_returns_image_witness :
  let fs' := fst (handle failing_services served_fs
                    (POST_upload 2048 demo_upload)) in
  handle failing_services fs' (GET_download (lit "scan.PNG")) =
    (fs', Response (Attachment (lit "scan.PNG") (Bytes [137%N; 80%N])) 200).
Proof.
  apply (download_after_upload_returns_image failing_services served_fs
           (<[ [lit "srv"; lit "output"; lit "scan.PNG"]
               := Bytes [137%N; 80%N] ]> served_fs)
           2048 demo_upload demo_file (lit "scan.PNG")).
  - vm_compute. discriminate.
  - reflexivity.
  - discriminate.
  - vm_compute. reflexivity.
  - reflexivity.
  - reflexivity.
  - reflexivity.
Defined.

(** ** The upload route: what each status means *)

(** X12: the answer to an upload tells what happened.  413 with the
    framework's page: the request is over the size cap, and nothing was
    read or saved.  400: within the cap, one of the three checks failed and
    nothing was saved.  500 with the framework's page: the checks passed
    and saving the image raised.  500 with a JSON body: the image was saved
    and the OCR step raised; [detail] is the text of its exception.  201:
    the image was saved and the OCR step returned. *)
Theorem upload_status_cases
    (w : services) (fs : filesystem) (content_length : N)
    (files : list (pystr * FileStorage)) :
  let fs' := fst (handle w fs (POST_upload content_length files)) in
  let r := snd (handle w fs (POST_upload content_length files)) in
  ((MAX_CONTENT_LENGTH < content_length)%N /\
   r = Response (ErrorPage 413) 413 /\ fs' = fs) \/
  ((content_length <= MAX_CONTENT_LENGTH)%N /\
   status r = 400%nat /\ fs' = fs /\
   (files_get (lit "file") files = None \/
    exists file,
      files_get (lit "file") files = Some file /\
      (filename file = [] \/
       allowed_filename (secure_filename w (filename file)) = false))) \/
  ((content_length <= MAX_CONTENT_LENGTH)%N /\
   exists file,
     files_get (lit "file") files = Some file /\
     filename file <> [] /\
     allowed_filename (secure_filename w (filename file)) = true /\
     let saved_path := saved_path_of w file in
     ((exists e,
         file_save (system w) fs saved_path (stream file) = (fs, Raises e) /\
         r = Response (ErrorPage 500) 500 /\ fs' = fs) \/
      (exists fs1,
         file_save (system w) fs saved_path (stream file)
           = (fs1, Returns tt) /\
         ((exists e,
             ocr_image_to_txt w fs1 saved_path None = (fs', Raises e) /\
             r = Response
                   (Json [("error"%string, JStr (lit "ocr_failed"));
                          ("detail"%string, JStr (exn_str e))]) 500) \/
          (exists out texts,
             ocr_image_to_txt w fs1 saved_path None
               = (fs', Returns (out, texts)) /\
             status r = 201%nat))))).
Proof.
  intros fs' r. subst fs' r.
  destruct (MAX_CONTENT_LENGTH <? content_length)%N eqn:Hn.
  { left. simpl. unfold upload_file. rewrite Hn. simpl.
    apply N.ltb_lt in Hn. auto. }
  right.
  destruct (files_get (lit "file") files) as [file|] eqn:Hf;
    [|left; simpl; unfold upload_file; rewrite Hn, Hf; simpl;
      apply N.ltb_ge in Hn; auto].
  destruct (pystr_eqb (filename file) []) eqn:He.
  { left. simpl. unfold upload_file. rewrite Hn, Hf, He. simpl.
    apply N.ltb_ge in Hn. repeat split; [exact Hn|].
    right. exists file. split; [reflexivity|]. left.
    now apply pystr_eqb_true. }
  destruct (allowed_filename (secure_filename w (filename file))) eqn:Ha;
    [|left; simpl; unfold upload_file; rewrite Hn, Hf, He, Ha; simpl;
      apply N.ltb_ge in Hn; repeat split; [exact Hn|];
      right; exists file; auto].
  assert (Hne : filename file <> []).
  { intros E. rewrite E in He. discriminate He. }
  apply N.ltb_ge in Hn.
  right. split; [exact Hn|]. exists file.
  split; [reflexivity|]. split; [exact Hne|]. split; [exact Ha|].
  cbv zeta. unfold handle.
  rewrite (upload_file_checked w fs _ files file Hn Hf Hne Ha). cbv zeta.
  destruct (file_save (system w) fs (saved_path_of w file) (stream file))
    as [fs1 [[]|e]] eqn:Hs.
  - right. exists fs1. split; [reflexivity|].
    destruct (ocr_image_to_txt w fs1 (saved_path_of w file) None)
      as [fs2 [[out texts]|e]].
    + right. exists out, texts. split; reflexivity.
    + left. exists e. split; reflexivity.
  - left. exists e.
    assert (fs1 = fs) as ->.
    { revert Hs. unfold file_save.
      destruct (open_error _ _ _);
        [now intros [= <- _]|intros X; discriminate X]. }
    repeat split.
Qed.

(** ** Where the routes read and write *)

Lemma split_on_no_slash (s : pystr) :
  no_slash s = true -> split_on SLASH s = [s].
Proof.
  induction s as [|c s IH]; simpl; [reflexivity|].
  intros [Hc Hs]%andb_true_iff. apply negb_true_iff in Hc.
  rewrite Hc, (IH Hs). reflexivity.
Qed.

(** A name without a separator is one component, or none when it is empty
    or a single dot. *)
Lemma components_no_slash (s : pystr) :
  no_slash s = true -> components s = [s] \/ components s = [].
Proof.
  intros H. unfold components. rewrite (split_on_no_slash s H). simpl.
  destruct (negb _); auto.
Qed.

Lemma path_div_no_slash (base : path) (s : pystr) :
  no_slash s = true -> path_div base s = base ++ components s.
Proof.
  destruct s as [|c s]; simpl; [now rewrite app_nil_r|].
  intros [Hc _]%andb_true_iff. apply negb_true_iff in Hc. now rewrite Hc.
Qed.

(** X13: when the sanitized name has no path separator, as werkzeug's
    [secure_filename] returns it, an accepted upload is saved directly in
    the output directory under the sanitized name, and its text file next
    to it under the same stem. *)
Theorem upload_saves_directly_in_output (w : services) (file : FileStorage) :
  no_slash (secure_filename w (filename file)) = true ->
  allowed_filename (secure_filename w (filename file)) = true ->
  saved_path_of w file = IMAGES_DIR w ++ [secure_filename w (filename file)] /\
  exists stem ext,
    secure_filename w (filename file) = stem ++ DOT :: ext /\
    with_suffix (saved_path_of w file) (lit ".txt")
      = IMAGES_DIR w ++ [stem ++ lit ".txt"].
Proof.
  intros Hs Ha. set (name := secure_filename w (filename file)) in *.
  assert (Hc : components name = [name]).
  { destruct (components_no_slash name Hs) as [E|E]; [exact E|].
    now apply allowed_components_nonempty in Ha. }
  assert (Hp : saved_path_of w file = IMAGES_DIR w ++ [name]).
  { unfold saved_path_of. fold name. now rewrite path_div_no_slash, Hc. }
  split; [exact Hp|].
  destruct (path_suffix_split _ (allowed_suffix_nonempty _ Ha))
    as (stem & ext & Hn & _ & _ & _ & Hsfx).
  rewrite Hc in Hn, Hsfx. unfold path_name in Hn. simpl in Hn.
  exists stem, ext. split; [exact Hn|].
  rewrite Hp. unfold with_suffix.
  rewrite removelast_last.
  assert (Hname : path_name (IMAGES_DIR w ++ [name]) = name)
    by now apply path_name_app.
  assert (Hsuf : path_suffix (IMAGES_DIR w ++ [name]) = DOT :: ext).
  { rewrite path_suffix_app by discriminate. exact Hsfx. }
  rewrite Hname, Hsuf, Hn.
  replace (length (stem ++ DOT :: ext) - length (DOT :: ext))%nat
    with (length stem) by (rewrite length_app; lia).
  now rewrite take_app_length.
Qed.

Lemma upload_saves_directly_in_output_witness :
  saved_path_of demo_services
    {| filename := lit "scan.PNG"; stream := [] |}
  = [lit "srv"; lit "output"; lit "scan.PNG"].
Proof.
  apply (upload_saves_directly_in_output demo_services
           {| filename := lit "scan.PNG"; stream := [] |}).
  - reflexivity.
  - vm_compute. reflexivity.
Defined.

(** X14: when the sanitized name has no path separator, a download that is
    answered with a file has read it from the output directory: it is the
    regular file at the entry of that name. *)
Theorem download_reads_directly_in_output
    (w : services) (fs : filesystem) (name : pystr) (c : content) :
  no_slash (secure_filename w name) = true ->
  payload (snd (handle w fs (GET_download name)))
    = Attachment (secure_filename w name) c ->
  fs !! (IMAGES_DIR w ++ [secure_filename w name]) = Some c /\ c <> Dir.
Proof.
  intros Hs. cbn [handle snd]. unfold download.
  rewrite (path_div_no_slash _ _ Hs).
  destruct (components_no_slash _ Hs) as [-> | ->].
  - destruct (path_kind fs _) as [c'|] eqn:E; [|intros H; discriminate H].
    assert (El : fs !! (IMAGES_DIR w ++ [secure_filename w name]) = Some c').
    { destruct (IMAGES_DIR w ++ [secure_filename w name]) eqn:Ep;
        [|exact E].
      apply app_eq_nil in Ep as [_ Ep]. discriminate Ep. }
    destruct c'; try (intros H; discriminate H);
      (destruct (os_denies_read _ _ _); [intros H; discriminate H|]);
      simpl; intros [= <-]; (split; [exact El|discriminate]).
  - destruct (path_kind fs _); intros H; discriminate H.
Qed.

Lemma download_reads_directly_in_output_witness :
  demo_fs !! (IMAGES_DIR demo_services ++ [lit "scan.png"])
    = Some (Bytes [137%N; 80%N]) /\
  Bytes [137%N; 80%N] <> Dir.
Proof.
  apply (download_reads_directly_in_output demo_services demo_fs
           (lit "scan.png") (Bytes [137%N; 80%N])).
  - reflexivity.
  - reflexivity.
Defined.

(** A name that sanitizes to nothing asks for the output directory itself,
    which is there, and is answered not-found. *)
Example download_of_the_directory :
  handle demo_services demo_fs (GET_download [])
  = (demo_fs, Response (ErrorPage 404) 404).
Proof. reflexivity. Qed.

(** ** The batch script: other entries and failures *)

(** X15: entries whose lowercased name does not end in [.png], [.jpg] or
    [.jpeg] play no part in a run: the run over a listing and the run over
    its image names alone end the same way with the same files, also when
    an image fails. *)
Theorem batch_ignores_other_entries
    (image : Type) (w : batch_env image) (fs : filesystem)
    (entries : list pystr) :
  listdir w = Returns entries ->
  main_script w fs
  = main_script (with_listing w (List.filter is_image_name entries)) fs.
Proof.
  intros Hl. unfold main_script. rewrite Hl.
  change (batch_system (with_listing w (List.filter is_image_name entries)))
    with (batch_system w).
  change (listdir (with_listing w (List.filter is_image_name entries)))
    with (Returns (A := list pystr) (List.filter is_image_name entries)).
  change (print_error (with_listing w (List.filter is_image_name entries)))
    with (print_error w).
  cbv iota beta.
  now rewrite batch_loop_with_listing, (batch_loop_filter w entries).
Qed.

Lemma batch_ignores_other_entries_witness :
  main_script demo_batch ∅
  = main_script (with_listing demo_batch [lit "a.PNG"; lit "b.jpeg"]) ∅.
Proof.
  apply (batch_ignores_other_entries pystr demo_batch ∅
           [lit "a.PNG"; lit "notes.txt"; lit "b.jpeg"] eq_refl).
Defined.



(** ** The preview and the text file *)

(** X17: for an upload within the size cap that passes the three checks,
    whose image is saved and whose OCR step returns between one and twenty
    lines, the [text_preview] of the answer is the whole content of the
    text file, and the answer has no [warning]. *)
Theorem upload_preview_is_whole_text
    (w : services) (fs fs1 fs2 : filesystem) (content_length : N)
    (files : list (pystr * FileStorage)) (file : FileStorage)
    (out : path) (texts : list pystr) :
  (content_length <= MAX_CONTENT_LENGTH)%N ->
  files_get (lit "file") files = Some file ->
  filename file <> [] ->
  allowed_filename (secure_filename w (filename file)) = true ->
  file_save (system w) fs (saved_path_of w file) (stream file)
    = (fs1, Returns tt) ->
  ocr_image_to_txt w fs1 (saved_path_of w file) None
    = (fs2, Returns (out, texts)) ->
  (0 < length texts <= 20)%nat ->
  exists d data,
    payload (snd (handle w fs (POST_upload content_length files))) = Json d /\
    jget "text_preview" d = Some (JStr data) /\
    jget "warning" d = None /\
    fst (handle w fs (POST_upload content_length files)) !! out
    = Some (Text data).
Proof.
  intros Hn Hf He Ha Hs Ho Hlen.
  rewrite (upload_file_system w fs fs1 fs2 _ files file _ Hn Hf He Ha Hs Ho).
  destruct (ocr_text_file w _ _ _ _ _ Ho) as (result & data & _ & _ & Ht & Hl).
  unfold handle.
  rewrite (upload_file_checked w fs _ files file Hn Hf He Ha). cbv zeta.
  rewrite Hs, Ho.
  destruct texts as [|t ts]; [simpl in Hlen; lia|].
  cbn [text_to_write] in Ht. injection Ht as <-.
  eexists. exists (join NEWLINE (t :: ts)).
  split; [reflexivity|].
  rewrite firstn_all2 by (simpl in *; lia).
  repeat split. exact Hl.
Qed.

Lemma upload_preview_is_whole_text_witness :
  exists d,
    payload (snd (handle demo_services served_fs
                    (POST_upload 2048 demo_upload))) = Json d /\
    jget "text_preview" d = Some (JStr (lit "Hello")) /\
    jget "warning" d = None /\
    fst (handle demo_services served_fs (POST_upload 2048 demo_upload))
      !! [lit "srv"; lit "output"; lit "scan.txt"]
    = Some (Text (lit "Hello")).
Proof.
  destruct (upload_preview_is_whole_text demo_services served_fs
              (<[ [lit "srv"; lit "output"; lit "scan.PNG"]
                  := Bytes [137%N; 80%N] ]> served_fs)
              (<[ [lit "srv"; lit "output"; lit "scan.txt"]
                  := Text (lit "Hello") ]>
                 (<[ [lit "srv"; lit "output"; lit "scan.PNG"]
                     := Bytes [137%N; 80%N] ]> served_fs))
              2048 demo_upload demo_file
              [lit "srv"; lit "output"; lit "scan.txt"] [lit "Hello"])
    as (d & data & Hd & Hprev & Hwarn & Hl).
  - vm_compute. discriminate.
  - reflexivity.
  - discriminate.
  - vm_compute. reflexivity.
  - reflexivity.
  - reflexivity.
  - vm_compute. lia.
  - exists d.
    assert (E : data = lit "Hello").
    { vm_compute in Hl. now injection Hl as <-. }
    rewrite E in *. repeat split; assumption.
Defined.
